(** * gorepo: root resolution, module discovery and script dispatch

    A shallow embedding of the [main] package of the gorepo command-line
    tool.  Go strings are [string]s (byte sequences), [map[string]string]
    is a [gmap string string], an [error] value is the text of its
    [Error()] method, and a Go function returning [(v, err)] returns a
    pair whose second component is [None] for [nil].

    Everything the package reaches outside itself is an interface:
    the [FsI] and [ExecI] interfaces of the source, and the pieces of
    the Go standard library and of the TOML codec that it calls
    ([path/filepath], [os], [sort], the trimming of [strings] and the
    formatting of [fmt], encoding and decoding). *)

From stdpp Require Import base strings list gmap sorting pretty.
From Stdlib Require Import ZArith Ascii.

Local Open Scope string_scope.
Local Open Scope list_scope.
Local Open Scope Z_scope.

(** ** Go library functions on strings *)

Module strings.

(** [strings.Split(s, sep)] for a one-byte separator: the fields between
    the separators, at least one field. *)
Fixpoint Split_go (sep : ascii) (cur : string) (s : string) : list string :=
  match s with
  | EmptyString => [String.rev cur]
  | String c s' =>
      if Ascii.eqb c sep then String.rev cur :: Split_go sep EmptyString s'
      else Split_go sep (String c cur) s'
  end.

Definition Split (s : string) (sep : ascii) : list string :=
  Split_go sep EmptyString s.

(** [strings.Join(elems, sep)]. *)
Fixpoint Join (elems : list string) (sep : string) : string :=
  match elems with
  | [] => ""
  | [e] => e
  | e :: rest => e +:+ sep +:+ Join rest sep
  end.

End strings.

Module strconv.
Definition FormatBool (b : bool) : string := if b then "true" else "false".
End strconv.

(** ** Data model *)

(** A Go [error], by its message. *)
Definition error := option string.

Record RuntimeConfig := {
  WD : string;    (* working directory, folder where the tool was executed *)
  ROOT : string;  (* root of the monorepo *)
}.

Record StaticConfig := {
  MaxRecursion : Z;         (* max depth of the search for the root *)
  RootFileName : string;    (* file name identifying the monorepo *)
  ModuleFileName : string;  (* file name identifying a module *)
}.

Record Config := {
  Runtime : RuntimeConfig;
  Static : StaticConfig;
}.

Record RootConfig := {
  rc_Name : string;
  rc_Version : string;
  rc_Strategy : string;
  rc_Vendor : bool;
  rc_Scripts : gmap string string;
}.

Record ModuleConfig := {
  Name : string;          (* name of the folder, set at run time *)
  RelativePath : string;  (* path relative to the root, set at run time *)
  Scripts : gmap string string;
}.

(** Indexing a Go map: the zero value when the key is absent. *)
Definition map_index (m : gmap string string) (k : string) : string :=
  default "" (m !! k).

(** ** Interfaces to the outside *)

(** The functions of [path/filepath] the package calls. *)
Class Filepath := {
  filepath_Join : list string → string;
  filepath_Dir : string → string;
  filepath_Base : string → string;
  filepath_Rel : string → string → string * error;
}.

(** Two library functions whose results depend on tables of the Go
    distribution: [strings.TrimSpace], which cuts the Unicode white
    space at both ends of a text, and [fmt.Sprintf] called with a format
    and no operand, which rewrites every verb of the format. *)
Class Text := {
  strings_TrimSpace : string → string;
  fmt_Sprintf : string → string;
}.

(** The TOML codec: encoding a root document, and decoding a module
    document, of which the scripts alone are read. *)
Class Toml := {
  toml_Marshal : RootConfig → string * error;
  toml_Unmarshal : string → gmap string string * error;
}.

(** One entry handed to the callback of [filepath.Walk]. *)
Record WalkEntry := {
  we_path : string;
  we_IsDir : bool;
  we_err : error;
}.

#[global] Instance WalkEntry_eq_dec : EqDecision WalkEntry.
Proof. solve_decision. Defined.

(** The source's [FsI], over a world [W] the file system lives in. *)
Class FsI (W : Type) := {
  fs_Exists : W → string → bool;
  fs_Write : W → string → string → W * error;
  fs_Read : W → string → string * error;
}.

(** The source's [ExecI]. *)
Class ExecI (W : Type) := {
  x_GoCommand : W → string → list string → W * error;
  x_BashCommand : W → string → string → W * error;
}.

(** What [os/exec] and [os.Stat] do for the source's [Exec]: whether a
    path is reported as not existing, and the outcome of running a
    program with arguments in a directory ([CombinedOutput] also hands
    back what the program printed). *)
Class Proc (W : Type) := {
  os_IsNotExist : W → string → bool;
  cmd_Run : W → string → string → list string → W * error;
  cmd_CombinedOutput : W → string → string → list string → W * (string * error);
}.

(** What the package asks of [os] and [filepath.Walk] directly: the
    working directory and the entries of a walk, in the order visited. *)
Class OS (W : Type) := {
  os_Getwd : W → string * error;
  filepath_Walk : W → string → list WalkEntry;
}.

Section Resolver.
Context `{Filepath} {W : Type} `{FsI W}.

(** [getRootPath]'s loop, [n] iterations left. *)
Fixpoint getRootPath_loop (w : W) (cfg : Config) (n : nat)
    (currentDir : string) : string * error :=
  match n with
  | O => ("", Some "root not found")
  | S n' =>
      let filePath := filepath_Join [currentDir; RootFileName (Static cfg)] in
      if fs_Exists w filePath then (currentDir, None)
      else
        let parentDir := filepath_Dir currentDir in
        if String.eqb parentDir currentDir then (WD (Runtime cfg), None)
        else getRootPath_loop w cfg n' parentDir
  end.

(** [for i := 0; i <= MaxRecursion; i++] runs [MaxRecursion + 1] times,
    and not at all for a negative bound. *)
Definition getRootPath (w : W) (cfg : Config) : string * error :=
  let currentDir := WD (Runtime cfg) in
  if String.eqb currentDir "" then ("", Some "no working directory")
  else getRootPath_loop w cfg (Z.to_nat (MaxRecursion (Static cfg) + 1)) currentDir.

Definition RootConfigExists (w : W) (c : Config) : bool :=
  fs_Exists w (filepath_Join [ROOT (Runtime c); RootFileName (Static c)]).

Definition GoWorkspaceExists (w : W) (c : Config) : bool :=
  fs_Exists w (filepath_Join [ROOT (Runtime c); "go.work"]).

(** [NewConfig]: the compiled-in constants, the working directory, the
    root. *)
Definition NewConfig_Static : StaticConfig :=
  {| MaxRecursion := 7; RootFileName := "work.toml";
     ModuleFileName := "module.toml" |}.

Definition NewConfig `{OS W} (w : W) : Config * error :=
  let cfg := {| Static := NewConfig_Static;
                Runtime := {| WD := ""; ROOT := "" |} |} in
  match os_Getwd w with
  | (wd, None) =>
      let cfg := {| Static := Static cfg;
                    Runtime := {| WD := wd; ROOT := "" |} |} in
      match getRootPath w cfg with
      | (root, None) =>
          ({| Static := Static cfg;
              Runtime := {| WD := wd; ROOT := root |} |}, None)
      | (_, Some err) => (cfg, Some err)
      end
  | (_, Some err) => (cfg, Some err)
  end.

(** [LoadModuleConfig]: the scripts come from the document, the name
    and the relative path from the path. *)
Definition LoadModuleConfig `{Toml} (w : W) (c : Config)
    (relativePath : string) : ModuleConfig * error :=
  let zero := {| Name := ""; RelativePath := ""; Scripts := ∅ |} in
  let path := filepath_Join
    [ROOT (Runtime c); relativePath; ModuleFileName (Static c)] in
  match fs_Read w path with
  | (_, Some err) => (zero, Some err)
  | (file, None) =>
      match toml_Unmarshal file with
      | (scripts, Some err) =>
          ({| Name := ""; RelativePath := ""; Scripts := scripts |}, Some err)
      | (scripts, None) =>
          ({| Name := filepath_Base relativePath;
              RelativePath := relativePath;
              Scripts := scripts |}, None)
      end
  end.

(** The callback [GetModules] hands to [filepath.Walk]. *)
Definition walkFn `{Toml} (w : W) (c : Config)
    (modules : list ModuleConfig) (e : WalkEntry)
    : list ModuleConfig * error :=
  match we_err e with
  | Some err => (modules, Some err)
  | None =>
      if we_IsDir e then
        if fs_Exists w (filepath_Join [we_path e; ModuleFileName (Static c)])
        then
          let '(relativePath, err) :=
            filepath_Rel (ROOT (Runtime c)) (we_path e) in
          match err with
          | Some err => (modules, Some err)
          | None =>
              let '(moduleConfig, err) := LoadModuleConfig w c relativePath in
              match err with
              | Some err => (modules, Some err)
              | None => (modules ++ [moduleConfig], None)
              end
          end
        else (modules, None)
      else (modules, None)
  end.

(** [filepath.Walk] stops at the first error its callback returns. *)
Fixpoint Walk_loop `{Toml} (w : W) (c : Config)
    (entries : list WalkEntry) (modules : list ModuleConfig)
    : list ModuleConfig * error :=
  match entries with
  | [] => (modules, None)
  | e :: rest =>
      match walkFn w c modules e with
      | (modules', Some err) => (modules', Some err)
      | (modules', None) => Walk_loop w c rest modules'
      end
  end.

End Resolver.

(** [sort.Slice] with the comparison [less]: some rearrangement with no
    element [less] than one before it.  Which of the equal elements comes
    first is not promised by Go; a merge sort stands for it here. *)
Definition sort_Slice {A} (less : A → A → bool) (l : list A) : list A :=
  merge_sort (λ a b, Is_true (negb (less b a))) l.

(** [modules[i].Name < modules[j].Name]: Go compares strings byte by byte. *)
Definition less_Name (a b : ModuleConfig) : bool :=
  String.ltb (Name a) (Name b).

(** ** The running program: world, input, log and collaborator calls *)

(** The levels of the logger [Llog]; [Raw] is [Default], which writes
    its text with no line end. *)
Inductive Level := Fatal | Warning | Verbose | Success | Info | Plain | Raw.

(** A call that reaches a collaborator which can act on the world. *)
Inductive Call :=
| CallWrite (path content : string)
| CallGoCommand (dir : string) (args : list string)
| CallBashCommand (dir script : string).

(** The colour functions wrap a text in terminal escape codes; the text
    is kept, the codes are not. *)
Definition InfoColor (s : string) : string := s.

(** The line feed, the delimiter of [ReadString]. *)
Definition LF : string := String (ascii_of_nat 10) EmptyString.

(** The bytes of [s] up to and including the first [delim], all of [s]
    when there is none. *)
Fixpoint upTo (delim : ascii) (s : string) : string :=
  match s with
  | EmptyString => EmptyString
  | String c s' =>
      if Ascii.eqb c delim then String c EmptyString
      else String c (upTo delim s')
  end.

(** The first line of what a read returned, [read] being what it
    returned without its closing line feed. *)
Definition firstLine (read : string) : string :=
  upTo (ascii_of_nat 10) (read +:+ LF).

Arguments firstLine : simpl never.

Section Commands.
Context {fp : Filepath} {txt : Text} {codec : Toml} {W : Type}
        {fsys : FsI W} {exe : ExecI W} {sys : OS W}.

(** The state a command runs in.

    [stdin] is the input still to come, by the reads that will deliver
    it: each element is what one read of standard input returns to a
    reader asking for a buffer of 4096 bytes, its closing line feed left
    out.  A terminal delivers one line per read; a pipe or a file
    delivers the lines that are there together, in one element.

    [logged] holds the lines of the logger.  What a script prints goes
    to the standard streams of the tool without passing through the
    logger, and is not recorded.

    [calls] is the trace of the calls to the collaborators that act on
    the world. *)
Record Sys := {
  world : W;
  stdin : list string;
  logged : list (Level * string);
  calls : list Call;
}.

(** Commands are state transformers; a Go [error] result is a value. *)
Definition M (A : Type) : Type := Sys → A * Sys.

#[global] Instance M_ret : MRet M := λ A a s, (a, s).
#[global] Instance M_bind : MBind M := λ A B f m s,
  let '(a, s') := m s in f a s'.

Definition getWorld : M W := λ s, (world s, s).

Definition log (lv : Level) (msg : string) : M unit := λ s,
  (tt, {| world := world s; stdin := stdin s;
          logged := logged s ++ [(lv, msg)]; calls := calls s |}).

Definition act (c : Call) (step : W → W * error) : M error := λ s,
  let '(w', err) := step (world s) in
  (err, {| world := w'; stdin := stdin s; logged := logged s;
           calls := calls s ++ [c] |}).

Definition Write (path content : string) : M error :=
  act (CallWrite path content) (λ w, fs_Write w path content).

Definition GoCommand (dir : string) (args : list string) : M error :=
  act (CallGoCommand dir args) (λ w, x_GoCommand w dir args).

Definition BashCommand (absolutePath script : string) : M error :=
  act (CallBashCommand absolutePath script)
      (λ w, x_BashCommand w absolutePath script).

(** [bufio.NewReader(os.Stdin).ReadString('\n')], the reader being built
    for this one call, as both calls of [Init] do.  The new reader fills
    its buffer with one read and returns the first line of it with its
    delimiter; the lines that came with it stay in the buffer and are
    lost with the reader.  At the end of the input the result is the
    error [io.EOF]. *)
Definition ReadString : M (string * error) := λ s,
  match stdin s with
  | [] => (("", Some "EOF"), s)
  | line :: rest =>
      ((firstLine line, None),
       {| world := world s; stdin := rest; logged := logged s;
          calls := calls s |})
  end.

(** *** Config *)

Definition WriteRootConfig (c : Config) (rootConfig : RootConfig) : M error :=
  let '(configStr, err) := toml_Marshal rootConfig in
  match err with
  | Some err => mret (Some err)
  | None =>
      let filePath :=
        filepath_Join [ROOT (Runtime c); RootFileName (Static c)] in
      Write filePath configStr
  end.

Definition GetModules (c : Config) : M (list ModuleConfig * error) :=
  w ← getWorld;
  let currentPath := ROOT (Runtime c) in
  let '(modules, err) := Walk_loop w c (filepath_Walk w currentPath) [] in
  match err with
  | Some err => log Warning err;; mret (modules, Some err)
  | None => mret (sort_Slice less_Name modules, None)
  end.

(** *** init *)

Definition Init (cfg : Config) (args : list string) : M error :=
  w ← getWorld;
  if RootConfigExists w cfg then
    mret (Some ("monorepo already exists at " +:+ ROOT (Runtime cfg)))
  else
    let rootConfig :=
      {| rc_Name := default "" (args !! 0%nat); rc_Version := "0.1.0";
         rc_Strategy := "workspace"; rc_Vendor := true; rc_Scripts := ∅ |} in
    (* ask name *)
    asked ← (if String.eqb (rc_Name rootConfig) "" then
               let defaultName := filepath_Base (ROOT (Runtime cfg)) in
               log Raw ("Enter the monorepo name: "
                        +:+ InfoColor (fmt_Sprintf
                                         ("default: (" +:+ defaultName +:+ ")"))
                        +:+ " ");;
               '(response, err) ← ReadString;
               match err with
               | Some err => mret (inr ("failed to read input: " +:+ err))
               | None =>
                   let response := strings_TrimSpace response in
                   let response :=
                     if String.eqb response "" then defaultName
                     else response in
                   mret (inl response)
               end
             else mret (inl (rc_Name rootConfig)));
    match asked with
    | inr err => mret (Some err)
    | inl name =>
        (* ask strategy *)
        log Info "Using go workspace strategy by default (no other option for now)";;
        (* ask if should vendor *)
        log Raw ("Do you want to vendor dependencies? (y/n) "
                 +:+ InfoColor "default: (y)" +:+ " ");;
        '(response, err) ← ReadString;
        match err with
        | Some err => mret (Some ("failed to read input: " +:+ err))
        | None =>
            let rootConfig :=
              {| rc_Name := name; rc_Version := rc_Version rootConfig;
                 rc_Strategy := rc_Strategy rootConfig;
                 rc_Vendor := String.eqb (strings_TrimSpace response) "y";
                 rc_Scripts := rc_Scripts rootConfig |} in
            (* handle go workspace *)
            prepared ←
              (if String.eqb (rc_Strategy rootConfig) "workspace" then
                 w ← getWorld;
                 if negb (GoWorkspaceExists w cfg) then
                   log Verbose "go workspace does not exist yet, running 'go work init'";;
                   GoCommand (ROOT (Runtime cfg)) ["work"; "init"]
                 else
                   log Verbose "go workspace already exists, no need to create one";;
                   mret None
               else if String.eqb (rc_Strategy rootConfig) "rewrite" then
                 mret (Some "rewrite strategy unsupported yet")
               else
                 mret (Some ("invalid strategy '"
                             +:+ rc_Strategy rootConfig +:+ "'")));
            match prepared with
            | Some err => mret (Some err)
            | None =>
                err ← WriteRootConfig cfg rootConfig;
                match err with
                | Some err => mret (Some err)
                | None =>
                    log Verbose "created monorepo configuration 'work.toml' at root";;
                    log Success ("monorepo initialized at " +:+ ROOT (Runtime cfg));;
                    mret None
                end
            end
        end
    end.

(** *** list *)

Fixpoint List_print (modules : list ModuleConfig) : M unit :=
  match modules with
  | [] => mret tt
  | module :: rest => log Plain (Name module);; List_print rest
  end.

Definition List (cfg : Config) : M error :=
  w ← getWorld;
  if negb (RootConfigExists w cfg) then
    mret (Some ("monorepo not found at " +:+ ROOT (Runtime cfg)))
  else
    '(modules, err) ← GetModules cfg;
    match err with
    | Some err => mret (Some err)
    | None =>
        (if (length modules =? 0)%nat then log Info "no modules found"
         else List_print modules);;
        mret None
    end.

(** *** run *)

Fixpoint contains (s : list string) (e : string) : bool :=
  match s with
  | [] => false
  | a :: rest => if String.eqb a e then true else contains rest e
  end.

(** The loop that refuses [root] next to other targets: [all] is the
    whole token list, [rest] what the loop still has to visit. *)
Fixpoint rootWithOthers (all rest : list string) : bool :=
  match rest with
  | [] => false
  | target :: rest' =>
      if String.eqb target "root" && (1 <? length all)%nat then true
      else rootWithOthers all rest'
  end.

(** [targets[0]]; [strings.Split] never returns an empty slice. *)
Definition first (targets : list string) : string := hd "" targets.

(** The loop selecting the modules to run in, from the discovered ones. *)
Fixpoint selectModules (targets : list string)
    (allModules : list ModuleConfig) : list ModuleConfig :=
  match allModules with
  | [] => []
  | module :: rest =>
      if String.eqb (first targets) "all" || contains targets (Name module)
      then module :: selectModules targets rest
      else selectModules targets rest
  end.

(** [_, ok := module.Scripts[scriptName]; !ok || module.Scripts[scriptName] == ""] *)
Definition lacksScript (scriptName : string) (module : ModuleConfig) : bool :=
  let ok := bool_decide (is_Some (Scripts module !! scriptName)) in
  negb ok || String.eqb (map_index (Scripts module) scriptName) "".

Fixpoint modulesWithoutScript (scriptName : string)
    (modules : list ModuleConfig) : list string :=
  match modules with
  | [] => []
  | module :: rest =>
      if lacksScript scriptName module
      then Name module :: modulesWithoutScript scriptName rest
      else modulesWithoutScript scriptName rest
  end.

(** The loop that executes the scripts, one module after the other. *)
Fixpoint execute (cfg : Config) (scriptName : string) (dryRun : bool)
    (modules : list ModuleConfig) : M error :=
  match modules with
  | [] => mret None
  | module :: rest =>
      let path := filepath_Join [ROOT (Runtime cfg); RelativePath module] in
      let script := map_index (Scripts module) scriptName in
      if String.eqb script "" then
        log Info "script is empty, skipping";;
        execute cfg scriptName dryRun rest
      else
        log Info ("running script " +:+ scriptName +:+ " in module "
                  +:+ Name module);;
        if dryRun then execute cfg scriptName dryRun rest
        else
          err ← BashCommand path script;
          match err with
          | Some err => mret (Some err)
          | None => execute cfg scriptName dryRun rest
          end
  end.

(** The second half of [Run]: check that the selected modules have the
    script, then execute it. *)
Definition dispatch (cfg : Config) (scriptName : string)
    (allowMissing dryRun : bool) (modules : list ModuleConfig) : M error :=
  log Verbose "checking if all modules have the script";;
  let without := modulesWithoutScript scriptName modules in
  if (length without =? length modules)%nat then
    mret (Some "not running script, because it is missing in all modules")
  else if (0 <? length without)%nat && negb allowMissing then
    mret (Some ("not running script, because it is missing in following modules '"
                +:+ scriptName +:+ "' :" +:+ strings.Join without ", "))
  else
    (if (0 <? length without)%nat && allowMissing then
       log Verbose ("script is missing in following modules (but flag allowMissing was passed) '"
                    +:+ scriptName +:+ "' :" +:+ strings.Join without ", ")
     else log Verbose "all modules have the script");;
    execute cfg scriptName dryRun modules.

(** [Run]: [args] are the positional arguments, [target], [dryRun] and
    [allowMissing] the values of the three flags. *)
Definition Run (cfg : Config) (args : list string) (target : string)
    (dryRun allowMissing : bool) : M error :=
  w ← getWorld;
  if negb (RootConfigExists w cfg) then
    mret (Some ("monorepo not found at " +:+ ROOT (Runtime cfg)))
  else
    let scriptName := default "" (args !! 0%nat) in
    if String.eqb scriptName "" then
      mret (Some "no script name provided, usage: gorepo run [script_name]")
    else
      log Verbose ("running script '" +:+ scriptName +:+ "'");;
      log Verbose ("value for flag allowMissing: "
                   +:+ strconv.FormatBool allowMissing);;
      log Verbose ("value for flag dryRun:       "
                   +:+ strconv.FormatBool dryRun);;
      let targets := strings.Split target "," in
      log Verbose ("value for flag target:       "
                   +:+ strings.Join targets ",");;
      if rootWithOthers targets targets then
        mret (Some "cannot run script in root and in modules at the same time, you're being too fancy")
      else if String.eqb (first targets) "root" then
        log Verbose "running script in root not supported yet";;
        mret None
      else
        '(allModules, err) ← GetModules cfg;
        match err with
        | Some err => mret (Some err)
        | None =>
            let modules := selectModules targets allModules in
            dispatch cfg scriptName allowMissing dryRun modules
        end.

End Commands.

Arguments Sys W : clear implicits.

(** ** The source's [Exec], the [ExecI] the program is started with *)

Section Exec.
Context {W : Type} `{Proc W}.

(** [GoCommand] runs a go command in a given directory. *)
Definition Exec_GoCommand (w : W) (absolutePath : string)
    (args : list string) : W * error :=
  let '(w', (output, err)) := cmd_CombinedOutput w absolutePath "go" args in
  match err with
  | Some err =>
      (w', Some ("failed to run command: " +:+ err +:+ LF
                 +:+ "Output: " +:+ output))
  | None => (w', None)
  end.

(** [BashCommand] runs a shell script in a given directory. *)
Definition Exec_BashCommand (w : W) (absolutePath script : string)
    : W * error :=
  if os_IsNotExist w absolutePath then
    (w, Some ("directory does not exist: " +:+ absolutePath))
  else
    let '(w', err) := cmd_Run w absolutePath "/bin/sh" ["-c"; script] in
    match err with
    | Some err =>
        (w', Some ("failed to run command in " +:+ absolutePath
                   +:+ ": " +:+ err))
    | None => (w', None)
    end.

Definition Exec : ExecI W :=
  {| x_GoCommand := Exec_GoCommand; x_BashCommand := Exec_BashCommand |}.

End Exec.

(** ** Reading the root document back, and the debug command *)

(** Decoding a root document, for [LoadRootConfig]: what the decoder
    has filled in, and its error. *)
Class TomlRoot := {
  toml_Unmarshal_root : string → RootConfig * error;
}.

(** The order in which [for k, v := range m] visits a map of scripts;
    Go leaves it unspecified. *)
Class MapRange := {
  range_Scripts : gmap string string → list (string * string);
}.

(** [strconv.Itoa]: the decimal digits, with a sign when negative. *)
Definition strconv_Itoa (i : Z) : string := pretty i.
Arguments strconv_Itoa : simpl never.

Section Inspect.
Context {fp : Filepath} {codec : Toml} {rootCodec : TomlRoot}
        {ranges : MapRange} {W : Type}
        {fsys : FsI W} {exe : ExecI W} {sys : OS W}.

Definition LoadRootConfig (w : W) (c : Config) : RootConfig * error :=
  let zero := {| rc_Name := ""; rc_Version := ""; rc_Strategy := "";
                 rc_Vendor := false; rc_Scripts := ∅ |} in
  match fs_Read w (filepath_Join [ROOT (Runtime c); RootFileName (Static c)])
  with
  | (_, Some err) => (zero, Some err)
  | (file, None) => toml_Unmarshal_root file
  end.

(** [WriteModuleConfig] is a stub. *)
Definition WriteModuleConfig (c : Config) (modConfig : ModuleConfig)
    (relativePath name : string) : @M W error :=
  mret None.

(** [Version]; [version] is set when the tool is built. *)
Definition Version (version : string) : @M W error :=
  log Plain version;; mret None.

(** The lines [Debug] prints for the scripts of one module. *)
Fixpoint Debug_scripts (entries : list (string * string)) : @M W unit :=
  match entries with
  | [] => mret tt
  | (k, v) :: rest =>
      log Plain ("  " +:+ k +:+ " -> " +:+ v);; Debug_scripts rest
  end.

Fixpoint Debug_modules (modules : list ModuleConfig) : @M W unit :=
  match modules with
  | [] => mret tt
  | module :: rest =>
      log Info ("MODULE " +:+ Name module);;
      log Plain ("MODULE_NAME........ " +:+ Name module);;
      log Plain ("MODULE_PATH........ " +:+ RelativePath module);;
      (if (0 <? size (Scripts module))%nat then
         log Plain "COMMANDS........";;
         Debug_scripts (range_Scripts (Scripts module))
       else mret tt);;
      Debug_modules rest
  end.

Definition Debug (cfg : Config) : @M W error :=
  log Info "===================";;
  log Info "RUNTIME_CONFIG";;
  log Info "===================";;
  log Plain ("WD_(COMMAND_RAN_FROM)........" +:+ WD (Runtime cfg));;
  log Plain ("ROOT (OF THE MONOREPO)......." +:+ ROOT (Runtime cfg));;
  w ← getWorld;
  log Plain ("MONOREPO EXISTS (AT ROOT)...."
             +:+ strconv.FormatBool (RootConfigExists w cfg));;
  log Info "===================";;
  log Info "STATIC_CONFIG";;
  log Info "===================";;
  log Plain ("MAX RECURSION................"
             +:+ strconv_Itoa (MaxRecursion (Static cfg)));;
  log Plain ("ROOT FILE NAME..............." +:+ RootFileName (Static cfg));;
  log Plain ("MODULE FILE NAME............." +:+ ModuleFileName (Static cfg));;
  w ← getWorld;
  if RootConfigExists w cfg then
    log Info "===================";;
    log Info "ROOT_CONFIG";;
    log Info "===================";;
    let '(rc, err) := LoadRootConfig w cfg in
    match err with
    | Some err => mret (Some err)
    | None =>
        log Plain ("NAME.........." +:+ rc_Name rc);;
        log Plain ("VERSION......." +:+ rc_Version rc);;
        log Plain ("STRATEGY......" +:+ rc_Strategy rc);;
        log Plain ("VENDOR........" +:+ strconv.FormatBool (rc_Vendor rc));;
        '(modules, err) ← GetModules cfg;
        match err with
        | Some err => mret (Some err)
        | None =>
            log Plain ("N_MODULES....."
                       +:+ strconv_Itoa (Z.of_nat (length modules)));;
            (if (0 <? length modules)%nat then
               log Info "===================";;
               log Info "MODULES_CONFIG";;
               log Info "==================="
             else mret tt);;
            Debug_modules modules;;
            mret None
        end
    end
  else mret None.

End Inspect.

(** ** A small machine to run the program on

    Slash-separated paths with no [..] element, ASCII text, an
    in-memory file system, a shell in which only [false] fails, and a
    codec for documents written as [name=command] entries separated by
    [;]. *)

Module Sample.

Definition components (p : string) : list string :=
  filter (λ c, c ≠ "" ∧ c ≠ ".") (strings.Split p "/").

Definition isAbs (p : string) : bool :=
  match p with
  | String c _ => Ascii.eqb c "/"
  | EmptyString => false
  end.

Definition build (abs : bool) (cs : list string) : string :=
  match cs with
  | [] => if abs then "/" else "."
  | _ => (if abs then "/" else "") +:+ strings.Join cs "/"
  end.

Definition Clean (p : string) : string := build (isAbs p) (components p).

Definition Join (elems : list string) : string :=
  match filter (λ e, e ≠ "") elems with
  | [] => ""
  | es => Clean (strings.Join es "/")
  end.

Definition Dir (p : string) : string :=
  build (isAbs p) (removelast (components p)).

Definition Base (p : string) : string :=
  match last (components p) with
  | Some c => c
  | None => if isAbs p then "/" else "."
  end.

Fixpoint relative (base targ : list string) : list string :=
  match base, targ with
  | b :: base', t :: targ' =>
      if String.eqb b t then relative base' targ'
      else ((λ _, "..") <$> base) ++ targ
  | _, _ => ((λ _, "..") <$> base) ++ targ
  end.

Definition Rel (basepath targpath : string) : string * error :=
  if Bool.eqb (isAbs basepath) (isAbs targpath) then
    (build false (relative (components basepath) (components targpath)), None)
  else
    ("", Some ("Rel: can't make " +:+ targpath +:+ " relative to "
               +:+ basepath)).

(** The white space of ASCII: tab, line feed, vertical tab, form feed,
    carriage return, space. *)
Definition isSpace (c : ascii) : bool :=
  let n := N_of_ascii c in
  ((9 <=? n) && (n <=? 13))%N || (n =? 32)%N.

Fixpoint TrimLeft (s : string) : string :=
  match s with
  | String c s' => if isSpace c then TrimLeft s' else s
  | EmptyString => EmptyString
  end.

(** What [strings.TrimSpace] returns on ASCII text. *)
Definition TrimSpace (s : string) : string :=
  String.rev (TrimLeft (String.rev (TrimLeft s))).

(** What [fmt.Sprintf] returns on a format with no percent sign. *)
Definition Sprintf (format : string) : string := format.

(** The machine is typed at in ASCII, and its folders have no percent
    sign in their names. *)
Definition text : Text :=
  {| strings_TrimSpace := TrimSpace; fmt_Sprintf := Sprintf |}.

Definition filepath : Filepath :=
  {| filepath_Join := Join; filepath_Dir := Dir;
     filepath_Base := Base; filepath_Rel := Rel |}.

(** The codec. *)
Fixpoint decode (entries : list string) : gmap string string * error :=
  match entries with
  | [] => (∅, None)
  | entry :: rest =>
      if String.eqb entry "" then decode rest
      else
        match strings.Split entry "=" with
        | [k; v] =>
            let '(m, err) := decode rest in (<[k := v]> m, err)
        | _ => (∅, Some ("toml: expected one = in " +:+ entry))
        end
  end.

Definition Unmarshal (file : string) : gmap string string * error :=
  decode (strings.Split file ";").

Definition Marshal (c : RootConfig) : string * error :=
  ("name=" +:+ rc_Name c +:+ ";version=" +:+ rc_Version c
   +:+ ";strategy=" +:+ rc_Strategy c
   +:+ ";vendor=" +:+ strconv.FormatBool (rc_Vendor c), None).

Definition toml : Toml :=
  {| toml_Marshal := Marshal; toml_Unmarshal := Unmarshal |}.

(** The root document read back: the four entries [Marshal] writes. *)
Definition UnmarshalRoot (file : string) : RootConfig * error :=
  let '(m, err) := Unmarshal file in
  ({| rc_Name := map_index m "name"; rc_Version := map_index m "version";
      rc_Strategy := map_index m "strategy";
      rc_Vendor := String.eqb (map_index m "vendor") "true";
      rc_Scripts := ∅ |}, err).

Definition tomlRoot : TomlRoot := {| toml_Unmarshal_root := UnmarshalRoot |}.

(** Maps are visited in the order of [map_to_list]. *)
Definition ranges : MapRange := {| range_Scripts := map_to_list |}.

(** The world: the files with their content, the directories, the
    entries a walk visits, in order, and the directory the tool is
    started in. *)
Record machine := {
  files : gmap string string;
  dirs : gset string;
  tree : list WalkEntry;
  cwd : string;
}.

Definition isDirectory (w : machine) (p : string) : bool :=
  bool_decide (p ∈ dirs w).

Definition Exists (w : machine) (p : string) : bool :=
  bool_decide (is_Some (files w !! p)) || isDirectory w p.

Definition Read (w : machine) (p : string) : string * error :=
  match files w !! p with
  | Some content => (content, None)
  | None => ("", Some ("open " +:+ p +:+ ": no such file or directory"))
  end.

Definition Write (w : machine) (p content : string) : machine * error :=
  ({| files := <[p := content]> (files w); dirs := dirs w;
      tree := tree w; cwd := cwd w |}, None).

Definition fs : FsI machine :=
  {| fs_Exists := Exists; fs_Write := Write; fs_Read := Read |}.

Definition under (root p : string) : bool :=
  bool_decide (components root `prefix_of` components p).

Definition os : OS machine :=
  {| os_Getwd := λ w, (cwd w, None);
     filepath_Walk := λ w root, filter (λ e, under root (we_path e) = true) (tree w) |}.

(** [sh -c false] exits with status 1, every other script with 0;
    [go work init] leaves a [go.work] behind. *)
Definition proc : Proc machine :=
  {| os_IsNotExist := λ w p, negb (Exists w p);
     cmd_Run := λ w dir name args,
       (w, if bool_decide (args = ["-c"; "false"])
           then Some "exit status 1" else None);
     cmd_CombinedOutput := λ w dir name args,
       (fst (Write w (Join [dir; "go.work"]) "go 1.23"), ("", None)) |}.

Definition exec : ExecI machine := @Exec machine proc.

(** A directory entry of a walk. *)
Definition dir (p : string) : WalkEntry :=
  {| we_path := p; we_IsDir := true; we_err := None |}.

(** The state a command starts in: nothing printed, nothing called. *)
Definition start (w : machine) (input : list string) : Sys machine :=
  {| world := w; stdin := input; logged := []; calls := [] |}.

(** A monorepo at [/repo] with the modules [api] (scripts [build] and
    [test]), [lib] (a script [build] that fails, and [test] left
    empty) and [web] (script [build]), visited in another order than
    that of their names. *)
Definition repo : machine :=
  {| files := {[ "/repo/work.toml" := "name=repo";
                 "/repo/web/module.toml" := "build=make";
                 "/repo/api/module.toml" := "build=go build;test=go test";
                 "/repo/pkg/lib/module.toml" := "build=false;test=" ]};
     dirs := {[ "/repo"; "/repo/web"; "/repo/api"; "/repo/pkg";
                "/repo/pkg/lib" ]};
     tree := [dir "/repo"; dir "/repo/web"; dir "/repo/api";
              dir "/repo/pkg"; dir "/repo/pkg/lib"];
     cwd := "/repo/pkg/lib" |}.

(** The same monorepo, its directories visited in yet another order. *)
Definition shuffled : machine :=
  {| files := files repo; dirs := dirs repo;
     tree := [dir "/repo/pkg/lib"; dir "/repo/pkg"; dir "/repo";
              dir "/repo/api"; dir "/repo/web"];
     cwd := cwd repo |}.

(** The configuration [NewConfig] builds when started in [repo]. *)
Definition repoConfig : Config :=
  {| Runtime := {| WD := "/repo/pkg/lib"; ROOT := "/repo" |};
     Static := NewConfig_Static |}.

(** The modules of [repo], as discovery returns them. *)
Definition api : ModuleConfig :=
  {| Name := "api"; RelativePath := "api";
     Scripts := {[ "build" := "go build"; "test" := "go test" ]} |}.
Definition lib : ModuleConfig :=
  {| Name := "lib"; RelativePath := "pkg/lib";
     Scripts := {[ "build" := "false"; "test" := "" ]} |}.
Definition web : ModuleConfig :=
  {| Name := "web"; RelativePath := "web";
     Scripts := {[ "build" := "make" ]} |}.

(** A directory tree nine levels deep with no monorepo in it. *)
Definition deep : machine :=
  {| files := ∅; dirs := {[ "/a/b/c/d/e/f/g/h/i" ]};
     tree := [dir "/a/b/c/d/e/f/g/h/i"];
     cwd := "/a/b/c/d/e/f/g/h/i" |}.

Definition deepConfig : Config :=
  {| Runtime := {| WD := "/a/b/c/d/e/f/g/h/i"; ROOT := "" |};
     Static := NewConfig_Static |}.

(** A directory with no monorepo yet, three levels deep. *)
Definition fresh : machine :=
  {| files := ∅; dirs := {[ "/home/me/mono" ]};
     tree := [dir "/home/me/mono"]; cwd := "/home/me/mono" |}.

Definition freshConfig : Config :=
  {| Runtime := {| WD := "/home/me/mono"; ROOT := "/home/me/mono" |};
     Static := NewConfig_Static |}.

(** [repo] with a directory the walk cannot read, met after [web] and
    before [api]. *)
Definition secret : WalkEntry :=
  {| we_path := "/repo/secret"; we_IsDir := true;
     we_err := Some "open /repo/secret: permission denied" |}.

Definition broken : machine :=
  {| files := files repo; dirs := dirs repo;
     tree := [dir "/repo"; dir "/repo/web"; secret; dir "/repo/api"];
     cwd := cwd repo |}.

(** A machine without the go tool. *)
Definition procNoGo : Proc machine :=
  {| os_IsNotExist := λ w p, negb (Exists w p);
     cmd_Run := λ w dir name args,
       (w, if bool_decide (args = ["-c"; "false"])
           then Some "exit status 1" else None);
     cmd_CombinedOutput := λ w dir name args,
       (w, ("", Some "exec: go: executable file not found in $PATH")) |}.

Definition execNoGo : ExecI machine := @Exec machine procNoGo.

End Sample.

(** ** Vocabulary of the statements *)

(** The order [sort.Slice] is given in [GetModules]: not after, by name. *)
Definition notAfter (a b : ModuleConfig) : Prop :=
  Is_true (negb (less_Name b a)).

Section Vocabulary.
Context `{Filepath} `{Toml} {W : Type} `{FsI W} `{ExecI W} `{OS W}.

(** The directory [k] parent hops above [d]. *)
Definition ancestor (k : nat) (d : string) : string :=
  Nat.iter k filepath_Dir d.

(** [d] holds the root marker file. *)
Definition marked (w : W) (cfg : Config) (d : string) : bool :=
  fs_Exists w (filepath_Join [d; RootFileName (Static cfg)]).

(** [d] is its own parent: the boundary of the file system. *)
Definition boundary (d : string) : bool :=
  String.eqb (filepath_Dir d) d.

(** A module defines the script: a non-empty entry under its name. *)
Definition hasScript (scriptName : string) (module : ModuleConfig) : Prop :=
  ∃ body, Scripts module !! scriptName = Some body ∧ body ≠ "".

#[global] Instance hasScript_dec scriptName module :
  Decision (hasScript scriptName module).
Proof.
  unfold hasScript. destruct (Scripts module !! scriptName) as [body|].
  - destruct (decide (body = "")) as [->|Hne].
    + right. by intros (? & [= <-] & ?).
    + left. eauto.
  - right. by intros (? & ? & _).
Defined.

(** The two refusals of the check of [dispatch]. *)
Definition missingInAll : string :=
  "not running script, because it is missing in all modules".

Definition missingIn (scriptName : string) (names : list string) : string :=
  "not running script, because it is missing in following modules '"
  +:+ scriptName +:+ "' :" +:+ strings.Join names ", ".

(** A run was refused by the check: one of the two refusals came back
    and no collaborator was called. *)
Definition refused (s : Sys W) (r : error * Sys W) : Prop :=
  (fst r = Some missingInAll ∨ ∃ scriptName names,
      fst r = Some (missingIn scriptName names))
  ∧ calls (snd r) = calls s.

(** The shell calls a run is to make, in order: one for each module
    whose script is not empty. *)
Definition planned (cfg : Config) (scriptName : string)
    (modules : list ModuleConfig) : list Call :=
  (λ module,
     CallBashCommand
       (filepath_Join [ROOT (Runtime cfg); RelativePath module])
       (map_index (Scripts module) scriptName))
  <$> filter (λ module, map_index (Scripts module) scriptName ≠ "") modules.

(** The shell calls [cs], made one after the other from the world [w],
    all succeed and leave the world [w']: each is made in the world the
    one before it left. *)
Inductive succeed : W → list Call → W → Prop :=
| succeed_nil w : succeed w [] w
| succeed_cons w w1 w' dir script cs :
    x_BashCommand w dir script = (w1, None) →
    succeed w1 cs w' →
    succeed w (CallBashCommand dir script :: cs) w'.

(** What the walk of [GetModules] collects, before sorting. *)
Definition walked (w : W) (c : Config) : list ModuleConfig * error :=
  Walk_loop w c (filepath_Walk w (ROOT (Runtime c))) [].

End Vocabulary.

(** ** Root resolution *)

Section RootTheory.
Context `{Filepath} {W : Type} `{FsI W}.

Lemma ancestor_S k d : ancestor (S k) d = ancestor k (filepath_Dir d).
Proof. unfold ancestor. by rewrite Nat.iter_succ_r. Qed.

Lemma ancestor_boundary k d : boundary d = true → ancestor k d = d.
Proof.
  intros Hb%String.eqb_eq. induction k as [|k IH]; [done|].
  by rewrite ancestor_S, Hb.
Qed.

(** The marker nearest to [d], if within the iterations left, is found. *)
Lemma getRootPath_loop_found w cfg n k d :
  (k < n)%nat →
  marked w cfg (ancestor k d) = true →
  (∀ j, (j < k)%nat → marked w cfg (ancestor j d) = false) →
  getRootPath_loop w cfg n d = (ancestor k d, None).
Proof.
  revert k d. induction n as [|n IH]; intros k d Hk Hm Hbelow; [lia|].
  simpl. fold (marked w cfg d). destruct k as [|k].
  - simpl in Hm. by rewrite Hm.
  - pose proof (Hbelow 0%nat ltac:(lia)) as Hd. simpl in Hd. rewrite Hd.
    fold (boundary d). destruct (boundary d) eqn:Hb.
    + rewrite (ancestor_boundary _ _ Hb) in Hm. congruence.
    + rewrite ancestor_S in *. apply IH; [lia|done|].
      intros j Hj. rewrite <- ancestor_S. apply Hbelow. lia.
Qed.

(** A boundary reached before any marker gives the working directory. *)
Lemma getRootPath_loop_boundary w cfg n k d :
  (k < n)%nat →
  (∀ j, (j ≤ k)%nat → marked w cfg (ancestor j d) = false) →
  boundary (ancestor k d) = true →
  getRootPath_loop w cfg n d = (WD (Runtime cfg), None).
Proof.
  revert k d. induction n as [|n IH]; intros k d Hk Hno Hb; [lia|].
  simpl. fold (marked w cfg d).
  pose proof (Hno 0%nat ltac:(lia)) as Hm. simpl in Hm. rewrite Hm.
  fold (boundary d). destruct (boundary d) eqn:Hd; [done|].
  destruct k as [|k]; [simpl in Hb; congruence|].
  rewrite ancestor_S in Hb. apply (IH k); [lia| |done].
  intros j Hj. rewrite <- ancestor_S. apply Hno. lia.
Qed.

(** With neither marker nor boundary in [n] directories the loop ends
    and the search fails. *)
Lemma getRootPath_loop_exhausted w cfg n d :
  (∀ j, (j < n)%nat →
     marked w cfg (ancestor j d) = false ∧ boundary (ancestor j d) = false) →
  getRootPath_loop w cfg n d = ("", Some "root not found").
Proof.
  revert d. induction n as [|n IH]; intros d Hno; [done|].
  simpl. fold (marked w cfg d) (boundary d).
  destruct (Hno 0%nat ltac:(lia)) as [Hm Hb]. simpl in Hm, Hb.
  rewrite Hm, Hb. apply IH.
  intros j Hj. rewrite <- ancestor_S. apply Hno. lia.
Qed.

(** C1, as the code has it.  With the compiled-in limit of 7 and a
    working directory that is not empty: the nearest marked directory
    at most 7 parent hops up is returned; when no marker is met and a
    directory that is its own parent is reached within those hops, the
    working directory is returned and no error; when eight directories
    are visited with neither marker nor boundary, the search fails with
    "root not found". *)
Theorem getRootPath_resolves (w : W) (cfg : Config) :
  MaxRecursion (Static cfg) = 7 →
  WD (Runtime cfg) ≠ "" →
  let wd := WD (Runtime cfg) in
  (∀ k, (k ≤ 7)%nat →
     marked w cfg (ancestor k wd) = true →
     (∀ j, (j < k)%nat → marked w cfg (ancestor j wd) = false) →
     getRootPath w cfg = (ancestor k wd, None))
  ∧ (∀ k, (k ≤ 7)%nat →
       (∀ j, (j ≤ k)%nat → marked w cfg (ancestor j wd) = false) →
       boundary (ancestor k wd) = true →
       getRootPath w cfg = (wd, None))
  ∧ ((∀ j, (j ≤ 7)%nat →
        marked w cfg (ancestor j wd) = false
        ∧ boundary (ancestor j wd) = false) →
     getRootPath w cfg = ("", Some "root not found")).
Proof.
  intros Hmax Hwd wd. unfold getRootPath. rewrite Hmax.
  apply String.eqb_neq in Hwd. rewrite Hwd.
  change (Z.to_nat (7 + 1)) with 8%nat. fold wd. split_and!.
  - intros k Hk Hm Hbelow. apply getRootPath_loop_found; [lia|done..].
  - intros k Hk Hno Hb. by apply (getRootPath_loop_boundary _ _ _ k); [lia|..].
  - intros Hno. apply getRootPath_loop_exhausted. intros j Hj. apply Hno. lia.
Qed.

End RootTheory.

(** ** Module discovery *)

Section DiscoveryTheory.
Context `{Filepath} `{Toml} {W : Type} `{FsI W} `{ExecI W} `{OS W}.

Lemma notAfter_le a b : notAfter a b ↔ String.le (Name a) (Name b).
Proof.
  unfold notAfter, less_Name, String.le, String.ltb, String.leb.
  rewrite (String.compare_antisym (Name a) (Name b)).
  by destruct (String.compare (Name b) (Name a)).
Qed.

#[local] Instance notAfter_trans : Transitive notAfter.
Proof.
  intros a b c. rewrite !notAfter_le. apply (transitivity (R := String.le)).
Qed.

#[local] Instance notAfter_total : Total notAfter.
Proof. intros a b. rewrite !notAfter_le. apply (total String.le). Qed.

Lemma sort_Slice_sorted (l : list ModuleConfig) :
  StronglySorted String.le (Name <$> sort_Slice less_Name l).
Proof.
  apply (StronglySorted_fmap _ notAfter).
  - intros a b. by rewrite notAfter_le.
  - apply (StronglySorted_merge_sort notAfter).
Qed.

Lemma sort_Slice_Permutation (l : list ModuleConfig) :
  sort_Slice less_Name l ≡ₚ l.
Proof. apply (merge_sort_Permutation notAfter). Qed.

(** Two sorts of the same modules list the same names. *)
Lemma sort_Slice_names (l1 l2 : list ModuleConfig) :
  l1 ≡ₚ l2 →
  Name <$> sort_Slice less_Name l1 = Name <$> sort_Slice less_Name l2.
Proof.
  intros Hp. apply (StronglySorted_unique String.le);
    [apply sort_Slice_sorted..|].
  by rewrite !sort_Slice_Permutation, Hp.
Qed.

(** The callback adds to what was collected and looks at nothing of it. *)
Lemma walkFn_acc w c modules e :
  walkFn w c modules e
  = (modules ++ fst (walkFn w c [] e), snd (walkFn w c [] e)).
Proof.
  unfold walkFn. destruct (we_err e); simpl; [by rewrite app_nil_r|].
  destruct (we_IsDir e); simpl; [|by rewrite app_nil_r].
  destruct (fs_Exists _ _); simpl; [|by rewrite app_nil_r].
  destruct (filepath_Rel _ _) as [rel [err|]]; simpl; [by rewrite app_nil_r|].
  destruct (LoadModuleConfig _ _ _) as [mc [err|]]; simpl;
    [by rewrite app_nil_r|done].
Qed.

(** A walk that meets no error collects what each entry adds, in order. *)
Lemma Walk_loop_clean w c entries modules :
  Forall (λ e, snd (walkFn w c [] e) = None) entries →
  Walk_loop w c entries modules
  = (modules ++ (entries ≫= λ e, fst (walkFn w c [] e)), None).
Proof.
  intros Hok. revert modules.
  induction Hok as [|e entries He _ IH]; intros modules; simpl.
  - by rewrite app_nil_r.
  - rewrite walkFn_acc, He. destruct (walkFn w c [] e) as [added err].
    simpl in *. by rewrite IH, (assoc_L (++)).
Qed.

(** A walk that returns no error met none. *)
Lemma Walk_loop_None w c entries modules found :
  Walk_loop w c entries modules = (found, None) →
  Forall (λ e, snd (walkFn w c [] e) = None) entries.
Proof.
  revert modules. induction entries as [|e entries IH]; intros modules;
    simpl; [by constructor|].
  rewrite walkFn_acc. destruct (walkFn w c [] e) as [added [err|]] eqn:He;
    simpl; intros Hrest; [discriminate|].
  constructor; [by rewrite He|by eapply IH].
Qed.

(** The callback reads the world through [Exists] and [Read] only. *)
Lemma walkFn_agree w w' c modules e :
  (∀ p, fs_Exists w' p = fs_Exists w p) →
  (∀ p, fs_Read w' p = fs_Read w p) →
  walkFn w' c modules e = walkFn w c modules e.
Proof.
  intros HE HR. unfold walkFn. rewrite HE.
  destruct (we_err e); [done|]. destruct (we_IsDir e); [|done].
  destruct (fs_Exists w _); [|done].
  destruct (filepath_Rel _ _) as [rel [err|]]; [done|].
  unfold LoadModuleConfig. by rewrite HR.
Qed.

(** [GetModules] changes nothing but the log. *)
Lemma GetModules_frame c s :
  world (snd (GetModules c s)) = world s
  ∧ calls (snd (GetModules c s)) = calls s
  ∧ stdin (snd (GetModules c s)) = stdin s.
Proof.
  unfold GetModules, mbind, M_bind, getWorld. simpl.
  destruct (Walk_loop _ _ _ _) as [modules [err|]]; done.
Qed.

(** What [GetModules] returns: the walk's modules and error, or the
    sorted modules. *)
Lemma GetModules_result c s :
  fst (GetModules c s)
  = match walked (world s) c with
    | (found, Some err) => (found, Some err)
    | (found, None) => (sort_Slice less_Name found, None)
    end.
Proof.
  unfold GetModules, walked, mbind, M_bind, getWorld. simpl.
  destruct (Walk_loop _ _ _ _) as [modules [err|]]; done.
Qed.

(** C7.  Whenever [GetModules] returns without error, its modules
    are in ascending byte-wise lexicographic order of their names and
    are those the walk collected; and a walk that visits the same
    entries in any other order, over the same files, also succeeds and
    returns the same sequence of names. *)
Theorem GetModules_sorted (c : Config) (s s' : Sys W)
    (modules : list ModuleConfig) :
  GetModules c s = ((modules, None), s') →
  StronglySorted String.le (Name <$> modules)
  ∧ modules ≡ₚ fst (walked (world s) c)
  ∧ ∀ s2 : Sys W,
      (∀ p, fs_Exists (world s2) p = fs_Exists (world s) p) →
      (∀ p, fs_Read (world s2) p = fs_Read (world s) p) →
      filepath_Walk (world s2) (ROOT (Runtime c))
        ≡ₚ filepath_Walk (world s) (ROOT (Runtime c)) →
      ∃ modules2,
        GetModules c s2 = ((modules2, None), s2)
        ∧ Name <$> modules2 = Name <$> modules.
Proof.
  intros Hrun. pose proof (GetModules_result c s) as Hres.
  rewrite Hrun in Hres. simpl in Hres.
  destruct (walked (world s) c) as [found [err|]] eqn:Hwalk; [done|].
  injection Hres as ->. split_and!.
  - apply sort_Slice_sorted.
  - apply sort_Slice_Permutation.
  - intros s2 HE HR Hperm. unfold walked in Hwalk.
    pose proof (Walk_loop_None _ _ _ _ _ Hwalk) as Hok.
    rewrite (Walk_loop_clean _ _ _ _ Hok) in Hwalk. injection Hwalk as <-.
    assert (Forall (λ e, snd (walkFn (world s2) c [] e) = None)
              (filepath_Walk (world s2) (ROOT (Runtime c)))) as Hok2.
    { rewrite Hperm. eapply Forall_impl; [exact Hok|].
      intros e He. simpl. by rewrite (walkFn_agree (world s)). }
    eexists. split.
    + unfold GetModules, mbind, M_bind, getWorld. simpl.
      rewrite (Walk_loop_clean _ _ _ _ Hok2). reflexivity.
    + simpl. apply sort_Slice_names.
      assert (∀ l : list WalkEntry,
                (l ≫= λ e, fst (walkFn (world s2) c [] e))
                = (l ≫= λ e, fst (walkFn (world s) c [] e))) as ->.
      { intros l. apply list_bind_ext; [|done].
        intros e. by rewrite (walkFn_agree (world s)). }
      by rewrite Hperm.
Qed.

End DiscoveryTheory.

(** ** Script dispatch *)

Section DispatchLemmas.
Context {fp : Filepath} {W : Type} {exe : ExecI W}.

Lemma lacksScript_spec scriptName module :
  lacksScript scriptName module = true ↔ ¬ hasScript scriptName module.
Proof.
  unfold lacksScript, hasScript, map_index.
  destruct (Scripts module !! scriptName) as [body|] eqn:Hbody; simpl.
  - rewrite String.eqb_eq. split.
    + intros -> (? & [= <-] & ?). done.
    + intros Hno. destruct (decide (body = "")) as [|Hne]; [done|].
      destruct Hno. eauto.
  - split; [|done]. by intros _ (? & ? & _).
Qed.

(** An entry mapped to the empty string counts as a missing script. *)
Lemma lacksScript_empty scriptName module :
  Scripts module !! scriptName = Some "" → lacksScript scriptName module = true.
Proof.
  intros Hbody. apply lacksScript_spec. intros (? & Hb & ?). congruence.
Qed.

(** The script body is empty exactly for the modules lacking the script. *)
Lemma map_index_empty scriptName module :
  map_index (Scripts module) scriptName = ""
  ↔ lacksScript scriptName module = true.
Proof.
  unfold lacksScript, map_index.
  destruct (Scripts module !! scriptName) as [body|]; simpl.
  - by rewrite String.eqb_eq.
  - done.
Qed.

Lemma modulesWithoutScript_filter scriptName modules :
  modulesWithoutScript scriptName modules
  = Name <$> filter (λ m, ¬ hasScript scriptName m) modules.
Proof.
  induction modules as [|m modules IH]; [done|]. simpl.
  rewrite filter_cons. destruct (lacksScript scriptName m) eqn:Hl.
  - apply lacksScript_spec in Hl. rewrite decide_True by done.
    by rewrite fmap_cons, IH.
  - rewrite decide_False; [done|].
    intros Hno%lacksScript_spec. congruence.
Qed.

Lemma length_filter_all {A} (P : A → Prop) `{∀ x, Decision (P x)}
    (l : list A) :
  length (filter P l) = length l ↔ Forall P l.
Proof.
  induction l as [|x l IH]; [by split; [constructor|]|].
  rewrite filter_cons, Forall_cons. destruct (decide (P x)) as [Hx|Hx]; simpl.
  - rewrite <- IH. split; [intros [= ?]; done|intros [_ ->]; done].
  - pose proof (length_filter P l). split; [lia|tauto].
Qed.

Lemma length_filter_some {A} (P : A → Prop) `{∀ x, Decision (P x)}
    (l : list A) :
  (0 < length (filter P l))%nat ↔ Exists P l.
Proof.
  induction l as [|x l IH]; [simpl; rewrite Exists_nil; lia|].
  rewrite filter_cons, Exists_cons. destruct (decide (P x)) as [Hx|Hx]; simpl.
  - split; [tauto|lia].
  - rewrite IH. tauto.
Qed.

(** How [dispatch] decides, as one equation: the two refusals, or the
    execution of the scripts. *)
Lemma dispatch_decides cfg scriptName allowMissing dryRun modules s :
  let missing := filter (λ m, ¬ hasScript scriptName m) modules in
  ∃ s1 s2,
    (world s1 = world s ∧ calls s1 = calls s ∧ stdin s1 = stdin s)
    ∧ (world s2 = world s ∧ calls s2 = calls s ∧ stdin s2 = stdin s)
    ∧ dispatch cfg scriptName allowMissing dryRun modules s
      = if decide (Forall (λ m, ¬ hasScript scriptName m) modules)
        then (Some missingInAll, s1)
        else if decide (Exists (λ m, ¬ hasScript scriptName m) modules
                        ∧ allowMissing = false)
        then (Some (missingIn scriptName (Name <$> missing)), s1)
        else execute cfg scriptName dryRun modules s2.
Proof.
  intros missing. unfold dispatch, mbind, M_bind. simpl.
  rewrite modulesWithoutScript_filter, length_fmap. subst missing.
  destruct (decide (Forall _ modules)) as [Hall|Hall].
  - apply (proj2 (length_filter_all _ _)), Nat.eqb_eq in Hall.
    rewrite Hall.
    eexists _, s. split_and!; [..|reflexivity]; done.
  - rewrite <- length_filter_all in Hall. apply Nat.eqb_neq in Hall.
    rewrite Hall.
    destruct (decide (Exists _ modules ∧ allowMissing = false))
      as [[Hsome ->]|Hnot].
    + apply (proj2 (length_filter_some _ _)), Nat.ltb_lt in Hsome.
      rewrite Hsome. simpl.
      eexists _, s. split_and!; [..|reflexivity]; done.
    + destruct ((0 <? length (filter _ modules))%nat) eqn:Hlt.
      * destruct allowMissing; simpl.
        -- eexists s, _. split_and!; [..|reflexivity]; done.
        -- destruct Hnot. split; [|done].
           by apply (proj1 (length_filter_some _ _)), Nat.ltb_lt.
      * simpl. eexists s, _. split_and!; [..|reflexivity]; done.
Qed.

(** Under a dry run the loop calls nobody and succeeds. *)
Lemma execute_dry cfg scriptName modules s :
  let r := execute cfg scriptName true modules s in
  fst r = None ∧ world (snd r) = world s ∧ calls (snd r) = calls s
  ∧ stdin (snd r) = stdin s.
Proof.
  revert s. induction modules as [|m modules IH]; intros s; [done|].
  simpl. destruct (String.eqb _ ""); unfold mbind, M_bind; simpl;
    apply (IH (Build_Sys _ _ _ _)).
Qed.

(** The loop makes the planned calls in order, each once, and stops
    behind the first that fails. *)
Lemma execute_trace cfg scriptName modules s :
  let r := execute cfg scriptName false modules s in
  ∃ made rest,
    planned cfg scriptName modules = made ++ rest
    ∧ calls (snd r) = calls s ++ made
    ∧ stdin (snd r) = stdin s
    ∧ match fst r with
      | None => rest = []
      | Some err =>
          ∃ before dir script w,
            made = before ++ [CallBashCommand dir script]
            ∧ x_BashCommand w dir script = (world (snd r), Some err)
      end.
Proof.
  revert s. induction modules as [|m modules IH]; intros s.
  { exists [], []. simpl. by rewrite app_nil_r. }
  simpl. unfold planned. rewrite filter_cons.
  destruct (String.eqb _ "") eqn:Hbody.
  - apply String.eqb_eq in Hbody. rewrite decide_False by (by intros []).
    unfold mbind, M_bind. simpl. apply (IH (Build_Sys _ _ _ _)).
  - apply String.eqb_neq in Hbody. rewrite decide_True by done.
    rewrite fmap_cons. unfold mbind, M_bind, BashCommand, act. simpl.
    destruct (x_BashCommand _ _ _) as [w' [err|]] eqn:Hcall; simpl.
    + eexists [_], _. split_and!; [done..|].
      eexists [], _, _, (world s). split; [done|]. exact Hcall.
    + match goal with
      | |- context [execute _ _ _ _ ?s1] =>
          destruct (IH s1) as (made & rest & Hp & Hc & Hi & Hr)
      end.
      simpl in *. eexists (_ :: made), rest. split_and!.
      * unfold planned in Hp. by rewrite Hp.
      * by rewrite Hc, <- (assoc_L (++)).
      * done.
      * destruct (fst _) as [err|]; [|done].
        destruct Hr as (before & dir & script & w & -> & Hfail).
        by eexists (_ :: before), dir, script, w.
Qed.

(** A list of calls leaves one world only, and does not both succeed
    and hold a call that fails where it is made. *)
Lemma succeed_inj w cs w1 w2 :
  succeed w cs w1 → succeed w cs w2 → w1 = w2.
Proof.
  intros H1. revert w2.
  induction H1 as [w|w wa w1 d sc cs Hcall Hcs IH]; intros w2 H2.
  - by inversion H2.
  - inversion H2 as [|? wb ? ? ? ? Hcall' Hcs']; subst.
    rewrite Hcall in Hcall'. injection Hcall' as <-. by apply IH.
Qed.

Lemma succeed_no_failure w before dir script after w1 w2 w' err :
  succeed w before w1 →
  x_BashCommand w1 dir script = (w2, Some err) →
  ¬ succeed w (before ++ CallBashCommand dir script :: after) w'.
Proof.
  induction 1 as [w|w wa w1 d sc cs Hcall Hcs IH]; intros Hfail Hall; simpl in *.
  - inversion Hall as [|? wb ? ? ? ? Hcall' _]; subst. congruence.
  - inversion Hall as [|? wb ? ? ? ? Hcall' Hcs']; subst.
    rewrite Hcall in Hcall'. injection Hcall' as <-. by apply IH.
Qed.

(** The first call that fails is one call: two splits of a list of
    calls at a call that fails after the calls before it succeeded are
    the same split. *)
Lemma first_failure_unique w before dir script after w1 w2 err
    before' dir' script' after' w1' w2' err' :
  before ++ CallBashCommand dir script :: after
  = before' ++ CallBashCommand dir' script' :: after' →
  succeed w before w1 →
  x_BashCommand w1 dir script = (w2, Some err) →
  succeed w before' w1' →
  x_BashCommand w1' dir' script' = (w2', Some err') →
  before = before' ∧ dir = dir' ∧ script = script' ∧ w1 = w1'.
Proof.
  intros Hp Hs. revert before' Hp.
  induction Hs as [w|w wa w1 d sc cs Hcall Hcs IH];
    intros before' Hp Hf Hs' Hf';
    inversion Hs' as [|? wb ? d' sc' cs' Hcall' Hcs']; subst; simpl in Hp.
  - by injection Hp as -> ->.
  - injection Hp as -> -> _. congruence.
  - injection Hp as -> -> _. congruence.
  - injection Hp as -> -> Hp. rewrite Hcall in Hcall'.
    injection Hcall' as <-.
    by destruct (IH _ Hp Hf Hcs' Hf') as (-> & -> & -> & ->).
Qed.

(** The two ways the loop ends.  Either every planned call was made and
    succeeded, in order, each in the world the one before it left, and
    the loop succeeds; or the calls up to one of them succeeded, that one
    failed in the world they left, it is the last call made, and the loop
    returns its error in the world as it left it. *)
Lemma execute_outcome cfg scriptName modules s :
  let r := execute cfg scriptName false modules s in
  (fst r = None
   ∧ succeed (world s) (planned cfg scriptName modules) (world (snd r))
   ∧ calls (snd r) = calls s ++ planned cfg scriptName modules)
  ∨ (∃ before dir script after w err,
       planned cfg scriptName modules
       = before ++ CallBashCommand dir script :: after
       ∧ succeed (world s) before w
       ∧ x_BashCommand w dir script = (world (snd r), Some err)
       ∧ fst r = Some err
       ∧ calls (snd r) = calls s ++ before ++ [CallBashCommand dir script]).
Proof.
  revert s. induction modules as [|m modules IH]; intros s.
  { left. simpl. rewrite app_nil_r. split_and!; [done|constructor|done]. }
  simpl. unfold planned. rewrite filter_cons.
  destruct (String.eqb _ "") eqn:Hbody.
  - apply String.eqb_eq in Hbody. rewrite decide_False by (by intros []).
    unfold mbind, M_bind. simpl. apply (IH (Build_Sys _ _ _ _)).
  - apply String.eqb_neq in Hbody. rewrite decide_True by done.
    rewrite fmap_cons. unfold mbind, M_bind, BashCommand, act. simpl.
    destruct (x_BashCommand _ _ _) as [w' [err|]] eqn:Hcall; simpl.
    + right. eexists [], _, _, _, (world s), err.
      split_and!; [done|constructor|exact Hcall|done|done].
    + match goal with
      | |- context [execute _ _ _ _ ?s1] =>
          destruct (IH s1)
            as [(Hr & Hs & Hc)
               |(before & dir & script & after & w & err
                 & Hp & Hs & Hf & Hr & Hc)]
      end; simpl in *.
      * left. split_and!; [done|by econstructor|].
        unfold planned in Hc. by rewrite Hc, <- (assoc_L (++)).
      * right. eexists (_ :: before), dir, script, after, w, err.
        split_and!; [|by econstructor|done|done|].
        -- unfold planned in Hp. by rewrite Hp.
        -- by rewrite Hc, <- !(assoc_L (++)).
Qed.

(** A planned call that fails after the calls planned before it
    succeeded ends the loop. *)
Lemma execute_first_failure cfg scriptName modules s
    before dir script after w w' err :
  planned cfg scriptName modules
  = before ++ CallBashCommand dir script :: after →
  succeed (world s) before w →
  x_BashCommand w dir script = (w', Some err) →
  let r := execute cfg scriptName false modules s in
  fst r = Some err
  ∧ world (snd r) = w'
  ∧ calls (snd r) = calls s ++ before ++ [CallBashCommand dir script].
Proof.
  intros Hp Hs Hf r. subst r.
  destruct (execute_outcome cfg scriptName modules s)
    as [(_ & Hall & _)
       |(before' & dir' & script' & after' & w1 & err'
         & Hp' & Hs' & Hf' & Hr & Hc)].
  - exfalso. rewrite Hp in Hall.
    by apply (succeed_no_failure _ _ _ _ _ _ _ _ _ Hs Hf Hall).
  - rewrite Hp in Hp'.
    destruct (first_failure_unique _ _ _ _ _ _ _ _ _ _ _ _ _ _ _
                Hp' Hs Hf Hs' Hf') as (<- & <- & <- & <-).
    rewrite Hf in Hf'. injection Hf' as -> ->. done.
Qed.

End DispatchLemmas.

Section DispatchTheory.
Context {fp : Filepath} {W : Type} {exe : ExecI W} {pr : Proc W}.

(** What the source's [Exec] says when a script fails: the directory,
    and what went wrong. *)
Lemma Exec_BashCommand_error w dir script w' err :
  Exec_BashCommand w dir script = (w', Some err) →
  err = "directory does not exist: " +:+ dir
  ∨ ∃ cause, cmd_Run w dir "/bin/sh" ["-c"; script] = (w', Some cause)
             ∧ err = "failed to run command in " +:+ dir +:+ ": " +:+ cause.
Proof.
  unfold Exec_BashCommand. destruct (os_IsNotExist w dir).
  - intros [= <- <-]. by left.
  - destruct (cmd_Run _ _ _ _) as [w1 [cause|]]; intros [= <- <-].
    right. by exists cause.
Qed.

(** C2.  [dispatch] is refused by its check, before any collaborator is
    called, exactly when every target lacks a non-empty entry for the
    script (whatever [allowMissing] is), or some but not all lack it
    and [allowMissing] is false; the first refusal is "missing in all
    modules", the second lists the names of the modules that lack the
    script, and an entry mapped to the empty string counts as lacking.
    This holds for every target list, the non-empty ones among them. *)
Theorem dispatch_refuses_iff (cfg : Config) (scriptName : string)
    (allowMissing dryRun : bool) (modules : list ModuleConfig) (s : Sys W) :
  let r := dispatch cfg scriptName allowMissing dryRun modules s in
  let lacks := λ m, ¬ hasScript scriptName m in
  (refused s r ↔
     Forall lacks modules
     ∨ (Exists lacks modules ∧ ¬ Forall lacks modules ∧ allowMissing = false))
  ∧ (Forall lacks modules → fst r = Some missingInAll)
  ∧ (Exists lacks modules → ¬ Forall lacks modules → allowMissing = false →
     fst r = Some (missingIn scriptName (Name <$> filter lacks modules)))
  ∧ (∀ m, Scripts m !! scriptName = Some "" → lacks m).
Proof.
  intros r lacks.
  destruct (dispatch_decides cfg scriptName allowMissing dryRun modules s)
    as (s1 & s2 & (Hw1 & Hc1 & Hi1) & (Hw2 & Hc2 & Hi2) & Heq).
  fold r lacks in Heq. split_and!.
  - destruct (decide (Forall lacks modules)) as [Hall|Hall].
    { rewrite Heq. unfold refused. simpl. intuition eauto. }
    destruct (decide (Exists lacks modules ∧ allowMissing = false))
      as [[Hsome Ham]|Hnot].
    { rewrite Heq. unfold refused. simpl. intuition eauto. }
    split; [|tauto]. intros [Hmsg Hcalls]. exfalso.
    rewrite Heq in Hmsg, Hcalls. destruct dryRun.
    + destruct (execute_dry cfg scriptName modules s2) as (Hnone & _).
      simpl in Hnone. rewrite Hnone in Hmsg. by destruct Hmsg as [|(?&?&?)].
    + destruct (execute_trace cfg scriptName modules s2)
        as (made & rest & _ & Hmade & _ & Hlast). simpl in Hmade, Hlast.
      assert (∃ err, fst (execute cfg scriptName false modules s2) = Some err)
        as [err Herr] by (destruct Hmsg as [|(?&?&?)]; eauto).
      rewrite Herr in Hlast. destruct Hlast as (before & ? & ? & ? & -> & _).
      rewrite Hmade, Hc2 in Hcalls.
      apply (f_equal length) in Hcalls. rewrite !length_app in Hcalls.
      simpl in Hcalls. lia.
  - intros Hall. rewrite Heq. by rewrite decide_True.
  - intros Hsome Hall Ham. rewrite Heq.
    by rewrite decide_False, decide_True.
  - intros m Hbody. by apply lacksScript_spec, lacksScript_empty.
Qed.

(** C6.  Without dry run the loop of [dispatch] makes the planned shell
    calls one after the other in the order of the targets, each in the
    world the one before it left, and ends in one of two ways.  Either
    every planned call was made and succeeded, and the loop succeeds.  Or
    the calls before one of the planned calls succeeded and that call
    failed: then it is the last call made, none of the calls planned
    after it is made, none is made twice, the error of the loop is the
    error that call returned, and the world is as that call left it.  So
    a call that fails after the calls before it succeeded always ends the
    loop with its error.  With the source's [Exec] that error names the
    directory the script was to run in and says what went wrong: that
    the directory does not exist, or how the shell failed. *)
Theorem execute_aborts_at_first_failure (cfg : Config) (scriptName : string)
    (modules : list ModuleConfig) (s : Sys W) :
  (let r := execute cfg scriptName false modules s in
   ((fst r = None
     ∧ succeed (world s) (planned cfg scriptName modules) (world (snd r))
     ∧ calls (snd r) = calls s ++ planned cfg scriptName modules)
    ∨ (∃ before dir script after w err,
         planned cfg scriptName modules
         = before ++ CallBashCommand dir script :: after
         ∧ succeed (world s) before w
         ∧ x_BashCommand w dir script = (world (snd r), Some err)
         ∧ fst r = Some err
         ∧ calls (snd r)
           = calls s ++ before ++ [CallBashCommand dir script]))
   ∧ (∀ before dir script after w w' err,
        planned cfg scriptName modules
        = before ++ CallBashCommand dir script :: after →
        succeed (world s) before w →
        x_BashCommand w dir script = (w', Some err) →
        fst r = Some err
        ∧ world (snd r) = w'
        ∧ calls (snd r) = calls s ++ before ++ [CallBashCommand dir script]))
  ∧ (let r := execute (exe := Exec) cfg scriptName false modules s in
     (∀ err, fst r = Some err →
        ∃ before dir script rest,
          planned cfg scriptName modules
          = before ++ CallBashCommand dir script :: rest
          ∧ calls (snd r) = calls s ++ before ++ [CallBashCommand dir script]
          ∧ (err = "directory does not exist: " +:+ dir
             ∨ ∃ cause,
                 err = "failed to run command in " +:+ dir +:+ ": " +:+ cause))
     ∧ (∀ before dir script after w,
          planned cfg scriptName modules
          = before ++ CallBashCommand dir script :: after →
          @succeed W Exec (world s) before w →
          (os_IsNotExist w dir = true →
           fst r = Some ("directory does not exist: " +:+ dir)
           ∧ world (snd r) = w
           ∧ calls (snd r)
             = calls s ++ before ++ [CallBashCommand dir script])
          ∧ (∀ w' cause,
               os_IsNotExist w dir = false →
               cmd_Run w dir "/bin/sh" ["-c"; script] = (w', Some cause) →
               fst r = Some ("failed to run command in " +:+ dir
                             +:+ ": " +:+ cause)
               ∧ world (snd r) = w'
               ∧ calls (snd r)
                 = calls s ++ before ++ [CallBashCommand dir script]))).
Proof.
  split; [split|intros r; split].
  - apply execute_outcome.
  - intros before dir script after w w' err. apply execute_first_failure.
  - intros err Herr.
    destruct (execute_outcome (exe := Exec) cfg scriptName modules s)
      as [(Hnone & _)
         |(before & dir & script & after & w & err'
           & Hp & _ & Hfail & Hr & Hc)]; fold r in Herr.
    { unfold r in Herr. congruence. }
    assert (err' = err) as -> by (unfold r in Herr; congruence).
    exists before, dir, script, after. split_and!; [done..|].
    apply Exec_BashCommand_error in Hfail as [->|(cause & _ & ->)]; eauto.
  - intros before dir script after w Hp Hs. split.
    + intros Hgone.
      apply (execute_first_failure (exe := Exec) cfg scriptName modules s
               before dir script after w w _ Hp Hs).
      simpl. unfold Exec_BashCommand. by rewrite Hgone.
    + intros w' cause Hthere Hrun.
      apply (execute_first_failure (exe := Exec) cfg scriptName modules s
               before dir script after w w' _ Hp Hs).
      simpl. unfold Exec_BashCommand. by rewrite Hthere, Hrun.
Qed.

End DispatchTheory.

(** ** The run command *)

Section RunTheory.
Context {fp : Filepath} {codec : Toml} {W : Type}
        {fsys : FsI W} {exe : ExecI W} {sys : OS W}.

Lemma Split_go_nonempty sep cur s : strings.Split_go sep cur s ≠ [].
Proof.
  revert cur. induction s as [|c s IH]; intros cur; simpl; [done|].
  by destruct (Ascii.eqb c sep).
Qed.

(** [strings.Split] returns at least one token, so [targets[0]] exists. *)
Lemma Split_nonempty s sep : strings.Split s sep ≠ [].
Proof. apply Split_go_nonempty. Qed.

Lemma contains_spec (l : list string) (e : string) :
  contains l e = true ↔ e ∈ l.
Proof.
  induction l as [|a l IH]; simpl; [by rewrite elem_of_nil|].
  rewrite elem_of_cons. destruct (String.eqb a e) eqn:Hae.
  - apply String.eqb_eq in Hae. split; [intros _; by left|done].
  - apply String.eqb_neq in Hae. rewrite IH.
    split; [by right|intros [Heq|Hin]; [congruence|done]].
Qed.

Lemma rootWithOthers_spec (all rest : list string) :
  rootWithOthers all rest = true ↔ "root" ∈ rest ∧ (1 < length all)%nat.
Proof.
  induction rest as [|t rest IH]; simpl.
  - rewrite elem_of_nil. split; [done|by intros []].
  - rewrite elem_of_cons. destruct (String.eqb t "root") eqn:Ht; simpl.
    + apply String.eqb_eq in Ht as ->.
      destruct (1 <? length all)%nat eqn:Hlen.
      * apply Nat.ltb_lt in Hlen. split; [intros _; split; [by left|done]|done].
      * apply Nat.ltb_ge in Hlen. rewrite IH.
        split; intros [_ ?]; lia.
    + apply String.eqb_neq in Ht. rewrite IH.
      split; [intros [? ?]; split; [by right|done]|].
      intros [[Heq|Hin] ?]; [congruence|done].
Qed.

(** With no [root] among the tokens neither of the two root branches
    of [Run] is taken. *)
Lemma no_root_token (targets : list string) :
  "root" ∉ targets →
  rootWithOthers targets targets = false
  ∧ String.eqb (first targets) "root" = false.
Proof.
  intros Hno. split.
  - apply not_true_is_false. rewrite rootWithOthers_spec. tauto.
  - apply String.eqb_neq. intros Hfirst. apply Hno.
    destruct targets as [|t targets]; [done|].
    simpl in Hfirst. subst t. by left.
Qed.

Lemma selectModules_all targets allModules :
  first targets = "all" → selectModules targets allModules = allModules.
Proof.
  intros Hall. induction allModules as [|m ms IH]; [done|]. simpl.
  by rewrite Hall, IH.
Qed.

Lemma selectModules_named targets allModules :
  first targets ≠ "all" →
  selectModules targets allModules
  = filter (λ m, Name m ∈ targets) allModules.
Proof.
  intros Hall%String.eqb_neq.
  induction allModules as [|m ms IH]; [done|]. simpl.
  rewrite Hall, filter_cons, IH. simpl.
  destruct (contains targets (Name m)) eqn:Hc.
  - apply contains_spec in Hc. by rewrite decide_True.
  - rewrite decide_False; [done|]. rewrite <- contains_spec. congruence.
Qed.

(** [Run] up to the check of the scripts: with a root document, a
    script name, no [root] token and a discovery that succeeds, what
    remains is [dispatch] on the selected modules; up to there the
    log alone has changed. *)
Lemma Run_reaches_dispatch cfg args target dryRun allowMissing s
    scriptName found :
  RootConfigExists (world s) cfg = true →
  args !! 0%nat = Some scriptName →
  scriptName ≠ "" →
  "root" ∉ strings.Split target "," →
  walked (world s) cfg = (found, None) →
  ∃ s1,
    (world s1 = world s ∧ calls s1 = calls s ∧ stdin s1 = stdin s)
    ∧ Run cfg args target dryRun allowMissing s
      = dispatch cfg scriptName allowMissing dryRun
          (selectModules (strings.Split target ",")
             (sort_Slice less_Name found)) s1.
Proof.
  intros Hroot Hname Hne [Hrw Hfirst]%no_root_token Hwalk.
  unfold Run, mbind, M_bind, getWorld. simpl.
  rewrite Hroot, Hname. simpl. apply String.eqb_neq in Hne. rewrite Hne.
  rewrite Hrw, Hfirst.
  match goal with
  | |- context [GetModules cfg ?s1] =>
      pose proof (GetModules_result cfg s1) as Hres;
      pose proof (GetModules_frame cfg s1) as (Hw & Hc & Hi);
      destruct (GetModules cfg s1) as [[allModules err] s2]
  end.
  simpl in *. rewrite Hwalk in Hres. injection Hres as -> ->.
  by exists s2.
Qed.

(** C3, as the code has it.  When the first token of the comma-split
    target expression is not [all], the selection is exactly the
    discovered modules whose name is among the tokens, in the order of
    discovery; when the first token is [all], it is every discovered
    module, whatever tokens follow.  With no [root] among the tokens
    the run goes on to the check of the scripts with that selection:
    a token that names no module is dropped and raises no error. *)
Theorem selectModules_by_name (cfg : Config) (args : list string)
    (target : string) (dryRun allowMissing : bool) (s : Sys W)
    (scriptName : string) (found : list ModuleConfig) :
  let targets := strings.Split target "," in
  let allModules := sort_Slice less_Name found in
  (first targets ≠ "all" →
   selectModules targets allModules
   = filter (λ m, Name m ∈ targets) allModules)
  ∧ (first targets = "all" → selectModules targets allModules = allModules)
  ∧ (RootConfigExists (world s) cfg = true →
     args !! 0%nat = Some scriptName →
     scriptName ≠ "" →
     "root" ∉ targets →
     walked (world s) cfg = (found, None) →
     ∃ s1,
       (world s1 = world s ∧ calls s1 = calls s)
       ∧ Run cfg args target dryRun allowMissing s
         = dispatch cfg scriptName allowMissing dryRun
             (selectModules targets allModules) s1).
Proof.
  intros targets allModules. split_and!.
  - apply selectModules_named.
  - apply selectModules_all.
  - intros Hroot Hname Hne Hno Hwalk.
    destruct (Run_reaches_dispatch cfg args target dryRun allowMissing s
                scriptName found) as (s1 & (? & ? & ?) & Heq); try done.
    by exists s1.
Qed.

(** C5.  When [root] is among the tokens of the target expression and
    there is more than one token, the run fails, calls no collaborator
    and leaves the world as it was; with a root document and a script
    name the failure is the refusal to run in root and in modules at
    the same time. *)
Theorem Run_root_with_others (cfg : Config) (args : list string)
    (target : string) (dryRun allowMissing : bool) (s : Sys W) :
  let targets := strings.Split target "," in
  "root" ∈ targets →
  (1 < length targets)%nat →
  let r := Run cfg args target dryRun allowMissing s in
  (∃ err, fst r = Some err)
  ∧ calls (snd r) = calls s
  ∧ world (snd r) = world s
  ∧ (RootConfigExists (world s) cfg = true →
     (∃ scriptName, args !! 0%nat = Some scriptName ∧ scriptName ≠ "") →
     fst r = Some "cannot run script in root and in modules at the same time, you're being too fancy").
Proof.
  intros targets Hin Hlen r.
  assert (rootWithOthers targets targets = true) as Hrw
    by (by apply rootWithOthers_spec).
  subst r. unfold Run, mbind, M_bind, getWorld. simpl.
  destruct (RootConfigExists (world s) cfg); simpl.
  - destruct (String.eqb (default "" (args !! 0%nat)) "") eqn:Hname; simpl.
    + split_and!; eauto. intros _ (n & Hn & Hne). rewrite Hn in Hname.
      simpl in Hname. by apply String.eqb_eq in Hname.
    + fold targets. rewrite Hrw. simpl. split_and!; eauto.
  - split_and!; eauto. done.
Qed.

(** Under a dry run [dispatch] calls nobody, and succeeds unless its
    check refuses. *)
Lemma dispatch_dry cfg scriptName allowMissing modules s :
  let r := dispatch cfg scriptName allowMissing true modules s in
  calls (snd r) = calls s ∧ world (snd r) = world s
  ∧ (Exists (hasScript scriptName) modules →
     Forall (hasScript scriptName) modules ∨ allowMissing = true →
     fst r = None).
Proof.
  intros r.
  destruct (dispatch_decides cfg scriptName allowMissing true modules s)
    as (s1 & s2 & (Hw1 & Hc1 & _) & (Hw2 & Hc2 & _) & Heq).
  fold r in Heq.
  destruct (execute_dry cfg scriptName modules s2) as (Hnone & Hw & Hc & _).
  destruct (decide (Forall _ modules)) as [Hall|Hall].
  { rewrite Heq. simpl. split_and!; [done..|].
    intros (m & Hm & Hhas)%Exists_exists _.
    destruct (proj1 (Forall_forall _ _) Hall m Hm Hhas). }
  destruct (decide (Exists _ modules ∧ allowMissing = false))
    as [[Hsome Ham]|Hnot].
  { rewrite Heq. simpl. split_and!; [done..|].
    intros _ [Hhas|Ham']; [|congruence].
    apply Exists_exists in Hsome as (m & Hm & Hlacks).
    destruct Hlacks. exact (proj1 (Forall_forall _ _) Hhas m Hm). }
  rewrite Heq. split_and!; [congruence..|done].
Qed.

(** C4.  With [dryRun] set, [dispatch] calls no collaborator, whatever
    the targets, the script name and [allowMissing] are, and returns
    success whenever its check lets the run pass: some target has the
    script, and all have it or [allowMissing] is set.  The whole of
    [Run] calls no collaborator either. *)
Theorem dryRun_calls_nobody (cfg : Config) (scriptName : string)
    (allowMissing : bool) (modules : list ModuleConfig)
    (args : list string) (target : string) (s : Sys W) :
  (let r := dispatch cfg scriptName allowMissing true modules s in
   calls (snd r) = calls s ∧ world (snd r) = world s
   ∧ (Exists (hasScript scriptName) modules →
      Forall (hasScript scriptName) modules ∨ allowMissing = true →
      fst r = None))
  ∧ (let r := Run cfg args target true allowMissing s in
     calls (snd r) = calls s ∧ world (snd r) = world s).
Proof.
  split; [apply dispatch_dry|].
  unfold Run, mbind, M_bind, getWorld. simpl.
  destruct (RootConfigExists (world s) cfg); simpl; [|done].
  destruct (String.eqb (default "" (args !! 0%nat)) ""); simpl; [done|].
  destruct (rootWithOthers _ _); simpl; [done|].
  destruct (String.eqb (first _) "root"); simpl; [done|].
  match goal with
  | |- context [GetModules cfg ?s1] =>
      pose proof (GetModules_frame cfg s1) as (Hw & Hc & _);
      destruct (GetModules cfg s1) as [[allModules [err|]] s2]
  end; simpl in *; [done|].
  match goal with
  | |- context [dispatch cfg ?n allowMissing true ?ms s2] =>
      destruct (dispatch_dry cfg n allowMissing ms s2) as (Hc' & Hw' & _)
  end.
  simpl in *. split; congruence.
Qed.

(** C10.  With a root document, a script name and no [root] token,
    when discovery succeeds and no module is selected, the run fails
    with "missing in all modules" and calls no collaborator.  No module
    is selected when none is discovered, and when the first token is
    not [all] and no token is the name of a discovered module. *)
Theorem Run_no_targets (cfg : Config) (args : list string)
    (target : string) (dryRun allowMissing : bool) (s : Sys W)
    (scriptName : string) (found : list ModuleConfig) :
  let targets := strings.Split target "," in
  let allModules := sort_Slice less_Name found in
  let r := Run cfg args target dryRun allowMissing s in
  RootConfigExists (world s) cfg = true →
  args !! 0%nat = Some scriptName →
  scriptName ≠ "" →
  "root" ∉ targets →
  walked (world s) cfg = (found, None) →
  (selectModules targets allModules = [] →
   fst r = Some missingInAll
   ∧ calls (snd r) = calls s ∧ world (snd r) = world s)
  ∧ (found = [] → selectModules targets allModules = [])
  ∧ (first targets ≠ "all" →
     (∀ m, m ∈ allModules → Name m ∉ targets) →
     selectModules targets allModules = []).
Proof.
  intros targets allModules r Hroot Hname Hne Hno Hwalk. split_and!.
  - intros Hnone.
    destruct (Run_reaches_dispatch cfg args target dryRun allowMissing s
                scriptName found) as (s1 & (Hw & Hc & _) & Heq); try done.
    subst r. rewrite Heq. fold targets allModules. rewrite Hnone.
    unfold dispatch, mbind, M_bind. simpl. done.
  - intros ->. done.
  - intros Hall Hnames. rewrite selectModules_named by done.
    induction allModules as [|m ms IH]; [done|].
    rewrite filter_cons, decide_False.
    + apply IH. intros m' Hm'. apply Hnames. by right.
    + apply Hnames. by left.
Qed.

End RunTheory.

(** ** The init command *)

Section InitTheory.
Context {fp : Filepath} {txt : Text} {codec : Toml} {W : Type}
        {fsys : FsI W} {exe : ExecI W} {sys : OS W}.

(** The guard of [Init]: with a root document nothing is done. *)
Lemma Init_guard (cfg : Config) (args : list string) (s : Sys W) :
  RootConfigExists (world s) cfg = true →
  Init cfg args s
  = (Some ("monorepo already exists at " +:+ ROOT (Runtime cfg)), s).
Proof.
  intros Hroot. unfold Init, mbind, M_bind, getWorld. simpl.
  by rewrite Hroot.
Qed.

(** An [Init] that succeeds has written the root document: on a file
    system where a file written exists, the root document then exists. *)
Lemma Init_then_exists (cfg : Config) (args : list string) (s : Sys W) :
  (∀ w p c w', fs_Write w p c = (w', None) → fs_Exists w' p = true) →
  fst (Init cfg args s) = None →
  RootConfigExists (world (snd (Init cfg args s))) cfg = true.
Proof.
  intros Hlaw.
  unfold Init, WriteRootConfig, Write, GoCommand, act, ReadString,
    mbind, M_bind, mret, M_ret, getWorld, log. simpl.
  repeat (case_match; simplify_eq/=; try done).
  all: intros _; unfold RootConfigExists; eauto.
Qed.

(** C8.  When the root document exists at the root, [Init] fails with
    "monorepo already exists at" the root and leaves everything as it
    was: the world, the input not read, the console, and no call to a
    collaborator, a write least of all.  So, on a file system where a
    file written exists, an [Init] that follows a successful one is
    refused and changes nothing. *)
Theorem Init_refuses_existing (cfg : Config) (args : list string)
    (s : Sys W) :
  (RootConfigExists (world s) cfg = true →
   Init cfg args s
   = (Some ("monorepo already exists at " +:+ ROOT (Runtime cfg)), s))
  ∧ ((∀ w p c w', fs_Write w p c = (w', None) → fs_Exists w' p = true) →
     fst (Init cfg args s) = None →
     ∀ args',
       Init cfg args' (snd (Init cfg args s))
       = (Some ("monorepo already exists at " +:+ ROOT (Runtime cfg)),
          snd (Init cfg args s))).
Proof.
  split; [apply Init_guard|].
  intros Hlaw Hok args'. by apply Init_guard, Init_then_exists.
Qed.

End InitTheory.

(** ** The program on the sample machine *)

Section Examples.
Import Sample.
#[local] Existing Instances filepath text toml fs os proc exec.

(** Started three levels below [/repo], the search finds it two hops up. *)
Lemma getRootPath_resolves_witness :
  getRootPath repo repoConfig = ("/repo", None).
Proof.
  apply (proj1 (getRootPath_resolves repo repoConfig eq_refl ltac:(done))
           2%nat).
  - lia.
  - vm_compute. reflexivity.
  - intros [|[|j]] Hj; [vm_compute; reflexivity..|lia].
Defined.

(** C1 as stated fails where the hop limit is hit: nine levels deep with
    no marker anywhere, eight directories are visited, none marked and
    none its own parent, and the search returns the error "root not
    found", not the working directory. *)
Lemma getRootPath_limit_counterexample :
  (∀ j, (j ≤ 7)%nat →
     marked deep deepConfig (ancestor j (WD (Runtime deepConfig))) = false
     ∧ boundary (ancestor j (WD (Runtime deepConfig))) = false)
  ∧ getRootPath deep deepConfig = ("", Some "root not found")
  ∧ getRootPath deep deepConfig ≠ (WD (Runtime deepConfig), None).
Proof.
  split_and!.
  - intros j Hj.
    do 8 (destruct j as [|j]; [vm_compute; split; reflexivity|]). lia.
  - by vm_compute.
  - by vm_compute.
Qed.

(** Discovery in [repo] lists [api], [lib], [web], in whichever order
    the directories are visited. *)
Lemma GetModules_sorted_witness :
  StronglySorted String.le
    (Name <$> fst (fst (GetModules repoConfig (start repo []))))
  ∧ Name <$> fst (fst (GetModules repoConfig (start shuffled [])))
    = ["api"; "lib"; "web"].
Proof.
  pose proof (GetModules_sorted repoConfig (start repo []) (start repo [])
                [api; lib; web] ltac:(by vm_compute))
    as (Hsorted & _ & Horder).
  split; [exact Hsorted|].
  destruct (Horder (start shuffled []))
    as (modules2 & Hrun & Hnames); [done..| |].
  - apply (bool_decide_unpack _). by vm_compute.
  - by rewrite Hrun.
Defined.

(** The script [test] is defined in [api] alone: without
    [allowMissing] the run is refused, and the refusal names [lib]
    and [web]. *)
Lemma dispatch_refuses_iff_witness :
  fst (dispatch repoConfig "test" false false [api; lib; web]
         (start repo []))
  = Some (missingIn "test" ["lib"; "web"]).
Proof.
  pose proof (dispatch_refuses_iff repoConfig "test" false false
                [api; lib; web] (start repo [])) as (_ & _ & Hsome & _).
  apply Hsome.
  - apply (bool_decide_unpack _). by vm_compute.
  - apply (bool_decide_unpack _). by vm_compute.
  - reflexivity.
Defined.

(** C3 as stated fails on [all,api]: no token is [root], the list is
    not the sole token [all], and yet [lib] and [web], which are not
    among the tokens, are selected. *)
Lemma selectModules_all_first_counterexample :
  ("root" ∉ strings.Split "all,api" ",")
  ∧ strings.Split "all,api" "," ≠ ["all"]
  ∧ selectModules (strings.Split "all,api" ",") [api; lib; web]
    = [api; lib; web]
  ∧ filter (λ m, Name m ∈ strings.Split "all,api" ",") [api; lib; web]
    = [api]
  ∧ selectModules (strings.Split "all,api" ",") [api; lib; web]
    ≠ filter (λ m, Name m ∈ strings.Split "all,api" ",") [api; lib; web].
Proof.
  split_and!.
  - apply (bool_decide_unpack _). by vm_compute.
  - by vm_compute.
  - by vm_compute.
  - by vm_compute.
  - by vm_compute.
Qed.

(** The tokens [web,ghost,api] select [api] and [web], in the order of
    discovery; [ghost] is dropped and the run reaches the check. *)
Lemma selectModules_by_name_witness :
  selectModules (strings.Split "web,ghost,api" ",")
    (sort_Slice less_Name [web; api; lib])
  = filter (λ m, Name m ∈ strings.Split "web,ghost,api" ",")
      (sort_Slice less_Name [web; api; lib])
  ∧ ∃ s1,
      (world s1 = repo ∧ calls s1 = [])
      ∧ Run repoConfig ["build"] "web,ghost,api" false false (start repo [])
        = dispatch repoConfig "build" false false
            (selectModules (strings.Split "web,ghost,api" ",")
               (sort_Slice less_Name [web; api; lib]))
            s1.
Proof.
  pose proof (selectModules_by_name repoConfig ["build"] "web,ghost,api"
                false false (start repo []) "build" [web; api; lib])
    as (Hnamed & _ & Hrun).
  split.
  - apply Hnamed. by vm_compute.
  - apply Hrun.
    + by vm_compute.
    + reflexivity.
    + done.
    + apply (bool_decide_unpack _). by vm_compute.
    + by vm_compute.
Defined.

(** A dry run of [build] over all of [repo] succeeds and calls nobody. *)
Lemma dryRun_calls_nobody_witness :
  fst (dispatch repoConfig "build" false true [api; lib; web]
         (start repo [])) = None
  ∧ calls (snd (Run repoConfig ["build"] "all" true false (start repo [])))
    = [].
Proof.
  pose proof (dryRun_calls_nobody repoConfig "build" false [api; lib; web]
                ["build"] "all" (start repo []))
    as ((_ & _ & Hpass) & (Hcalls & _)).
  split; [|exact Hcalls].
  apply Hpass.
  - apply (bool_decide_unpack _). by vm_compute.
  - left. apply (bool_decide_unpack _). by vm_compute.
Defined.

(** [root,api] is refused. *)
Lemma Run_root_with_others_witness :
  fst (Run repoConfig ["build"] "root,api" false false (start repo []))
  = Some "cannot run script in root and in modules at the same time, you're being too fancy".
Proof.
  apply (Run_root_with_others repoConfig ["build"] "root,api" false false
           (start repo [])).
  - apply (bool_decide_unpack _). by vm_compute.
  - vm_compute. lia.
  - by vm_compute.
  - exists "build". by split.
Defined.

(** [build] fails in [lib]: [api] and [lib] were called, [web] was not,
    and the error names [/repo/pkg/lib]. *)
Lemma execute_aborts_at_first_failure_witness :
  (fst (execute repoConfig "build" false [api; lib; web] (start repo []))
   = Some "failed to run command in /repo/pkg/lib: exit status 1"
   ∧ world (snd (execute repoConfig "build" false [api; lib; web]
                   (start repo [])))
     = repo
   ∧ calls (snd (execute repoConfig "build" false [api; lib; web]
                   (start repo [])))
     = [] ++ [CallBashCommand "/repo/api" "go build"]
          ++ [CallBashCommand "/repo/pkg/lib" "false"])
  ∧ (∃ before dir script rest,
       planned repoConfig "build" [api; lib; web]
       = before ++ CallBashCommand dir script :: rest
       ∧ calls (snd (execute repoConfig "build" false [api; lib; web]
                       (start repo [])))
         = [] ++ before ++ [CallBashCommand dir script]
       ∧ ("failed to run command in /repo/pkg/lib: exit status 1"
          = "directory does not exist: " +:+ dir
          ∨ ∃ cause,
              "failed to run command in /repo/pkg/lib: exit status 1"
              = "failed to run command in " +:+ dir +:+ ": " +:+ cause))
  ∧ fst (execute repoConfig "build" false [api; lib; web] (start repo []))
    = Some ("failed to run command in " +:+ "/repo/pkg/lib"
            +:+ ": " +:+ "exit status 1").
Proof.
  assert (succeed repo [CallBashCommand "/repo/api" "go build"] repo)
    as Hbefore
    by (eapply succeed_cons; [by vm_compute|constructor]).
  split; [|split].
  - apply (proj2 (proj1 (execute_aborts_at_first_failure repoConfig "build"
                           [api; lib; web] (start repo [])))
             [CallBashCommand "/repo/api" "go build"]
             "/repo/pkg/lib" "false"
             [CallBashCommand "/repo/web" "make"] repo repo);
      [by vm_compute|exact Hbefore|by vm_compute].
  - apply (proj1 (proj2 (execute_aborts_at_first_failure repoConfig "build"
                           [api; lib; web] (start repo [])))).
    by vm_compute.
  - apply (proj2 (proj2 (proj2 (execute_aborts_at_first_failure
                                  repoConfig "build" [api; lib; web]
                                  (start repo [])))
                    [CallBashCommand "/repo/api" "go build"]
                    "/repo/pkg/lib" "false"
                    [CallBashCommand "/repo/web" "make"] repo
                    ltac:(by vm_compute) Hbefore)
             repo "exit status 1"); by vm_compute.
Defined.

(** An [init] in [repo] is refused and changes nothing; in [fresh] a
    first [init] succeeds and a second is refused. *)
Lemma Init_refuses_existing_witness :
  Init repoConfig ["other"] (start repo ["y"])
  = (Some "monorepo already exists at /repo", start repo ["y"])
  ∧ fst (Init freshConfig []
           (snd (Init freshConfig ["mono"] (start fresh ["y"; "again"]))))
    = Some "monorepo already exists at /home/me/mono".
Proof.
  split.
  - apply (Init_refuses_existing repoConfig ["other"] (start repo ["y"])).
    by vm_compute.
  - erewrite (proj2 (Init_refuses_existing freshConfig ["mono"]
                       (start fresh ["y"; "again"]))); [done| |by vm_compute].
    intros w p c w' [= <-]. unfold fs_Exists. simpl. unfold Exists. simpl.
    by rewrite lookup_insert_eq.
Defined.

(** What [NewConfig] builds on the sample machines. *)
Example NewConfig_samples :
  NewConfig repo = (repoConfig, None)
  ∧ NewConfig fresh = (freshConfig, None)
  ∧ snd (NewConfig deep) = Some "root not found".
Proof. by vm_compute. Qed.

(** C9 fails on the code.  In a directory with no monorepo, [init]
    with no name, answered with two empty lines, takes the base name of
    the root as the name and writes a root document whose vendor flag
    is false, although the question announced [y] as the default. *)
Theorem Init_empty_vendor_reply :
  fst (Init freshConfig [] (start fresh [""; ""])) = None
  ∧ In (Raw, "Do you want to vendor dependencies? (y/n) default: (y) ")
       (logged (snd (Init freshConfig [] (start fresh [""; ""]))))
  ∧ calls (snd (Init freshConfig [] (start fresh [""; ""])))
    = [CallGoCommand "/home/me/mono" ["work"; "init"];
       CallWrite "/home/me/mono/work.toml"
         (fst (toml_Marshal
                 {| rc_Name := "mono"; rc_Version := "0.1.0";
                    rc_Strategy := "workspace"; rc_Vendor := false;
                    rc_Scripts := ∅ |}))].
Proof. vm_compute. intuition. Qed.

(** No module of [repo] is called [ghost]: the run fails. *)
Lemma Run_no_targets_witness :
  fst (Run repoConfig ["build"] "ghost" false false (start repo []))
  = Some missingInAll.
Proof.
  pose proof (Run_no_targets repoConfig ["build"] "ghost" false false
                (start repo []) "build" [web; api; lib]) as Hthm.
  simpl in Hthm.
  destruct Hthm as (Hfail & _ & Hnone).
  - by vm_compute.
  - reflexivity.
  - done.
  - apply (bool_decide_unpack _). by vm_compute.
  - by vm_compute.
  - apply Hfail, Hnone.
    + by vm_compute.
    + apply Forall_forall. apply (bool_decide_unpack _). by vm_compute.
Defined.

End Examples.

(** ** More on root resolution *)

Section RootMore.
Context {fp : Filepath} {W : Type} {fsys : FsI W} {sys : OS W}.

(** What a successful loop has seen: directories that are neither marked
    nor their own parent, then a marked one or a boundary. *)
Lemma getRootPath_loop_inv w cfg n d root :
  getRootPath_loop w cfg n d = (root, None) →
  ∃ k, (k < n)%nat
    ∧ (∀ j, (j < k)%nat →
         marked w cfg (ancestor j d) = false
         ∧ boundary (ancestor j d) = false)
    ∧ ((marked w cfg (ancestor k d) = true ∧ root = ancestor k d)
       ∨ (marked w cfg (ancestor k d) = false
          ∧ boundary (ancestor k d) = true ∧ root = WD (Runtime cfg))).
Proof.
  revert d. induction n as [|n IH]; intros d; simpl; [done|].
  fold (marked w cfg d) (boundary d).
  destruct (marked w cfg d) eqn:Hm.
  { intros [= <-]. exists 0%nat. split_and!; [lia|intros j; lia|by left]. }
  destruct (boundary d) eqn:Hb.
  { intros [= <-]. exists 0%nat. split_and!; [lia|intros j; lia|by right]. }
  intros (k & Hk & Hbelow & Hend)%IH. exists (S k). split_and!; [lia| |].
  - intros [|j] Hj; [done|]. rewrite ancestor_S. apply Hbelow. lia.
  - by rewrite ancestor_S.
Qed.

(** A failing loop has met neither marker nor boundary. *)
Lemma getRootPath_loop_fail w cfg n d root err :
  getRootPath_loop w cfg n d = (root, Some err) →
  root = "" ∧ err = "root not found"
  ∧ ∀ j, (j < n)%nat →
      marked w cfg (ancestor j d) = false ∧ boundary (ancestor j d) = false.
Proof.
  revert d. induction n as [|n IH]; intros d; simpl.
  { intros [= <- <-]. split_and!; [done..|intros j; lia]. }
  fold (marked w cfg d) (boundary d).
  destruct (marked w cfg d) eqn:Hm; [done|].
  destruct (boundary d) eqn:Hb; [done|].
  intros (-> & -> & Hno)%IH. split_and!; [done..|].
  intros [|j] Hj; [done|]. rewrite ancestor_S. apply Hno. lia.
Qed.

(** X1.  Whatever the hop limit, a root [getRootPath] returns without
    error lies on the chain of parents of the working directory, at most
    [MaxRecursion] hops up: it is the first marked directory of the
    chain, or, when a directory that is its own parent comes first, the
    working directory itself.  No directory below it on the chain is
    marked. *)
Theorem getRootPath_sound (w : W) (cfg : Config) (root : string) :
  getRootPath w cfg = (root, None) →
  WD (Runtime cfg) ≠ ""
  ∧ ∃ k, Z.of_nat k ≤ MaxRecursion (Static cfg)
      ∧ (∀ j, (j < k)%nat →
           marked w cfg (ancestor j (WD (Runtime cfg))) = false)
      ∧ ((marked w cfg (ancestor k (WD (Runtime cfg))) = true
          ∧ root = ancestor k (WD (Runtime cfg)))
         ∨ (marked w cfg (ancestor k (WD (Runtime cfg))) = false
            ∧ boundary (ancestor k (WD (Runtime cfg))) = true
            ∧ root = WD (Runtime cfg))).
Proof.
  unfold getRootPath.
  destruct (String.eqb (WD (Runtime cfg)) "") eqn:Hwd; [done|].
  apply String.eqb_neq in Hwd.
  intros (k & Hk & Hbelow & Hend)%getRootPath_loop_inv.
  split; [done|]. exists k. split_and!; [lia| |done].
  intros j Hj. by apply Hbelow.
Qed.

(** X2.  The two failures of [getRootPath].  An empty working directory
    gives "no working directory" whatever the file system holds.  A
    negative hop limit gives "root not found" even when the working
    directory is marked.  Every failure returns the empty root and is one
    of these two messages; "root not found" means that [MaxRecursion + 1]
    directories were visited, none marked and none its own parent. *)
Theorem getRootPath_failure (w : W) (cfg : Config) :
  (WD (Runtime cfg) = "" →
   getRootPath w cfg = ("", Some "no working directory"))
  ∧ (WD (Runtime cfg) ≠ "" → MaxRecursion (Static cfg) < 0 →
     getRootPath w cfg = ("", Some "root not found"))
  ∧ (∀ root err, getRootPath w cfg = (root, Some err) →
     root = ""
     ∧ ((WD (Runtime cfg) = "" ∧ err = "no working directory")
        ∨ (WD (Runtime cfg) ≠ "" ∧ err = "root not found"
           ∧ ∀ j, Z.of_nat j ≤ MaxRecursion (Static cfg) →
               marked w cfg (ancestor j (WD (Runtime cfg))) = false
               ∧ boundary (ancestor j (WD (Runtime cfg))) = false))).
Proof.
  unfold getRootPath. split_and!.
  - intros ->. done.
  - intros Hwd%String.eqb_neq Hneg. rewrite Hwd.
    by replace (Z.to_nat (MaxRecursion (Static cfg) + 1)) with 0%nat by lia.
  - intros root err.
    destruct (String.eqb (WD (Runtime cfg)) "") eqn:Hwd.
    + apply String.eqb_eq in Hwd. intros [= <- <-]. split; [done|by left].
    + apply String.eqb_neq in Hwd.
      intros (-> & -> & Hno)%getRootPath_loop_fail. split; [done|right].
      split_and!; [done..|]. intros j Hj. apply Hno. lia.
Qed.

(** X3.  A configuration [NewConfig] returns without error carries the
    compiled-in constants and the working directory [os.Getwd] gave, which
    is not empty.  If the root document does not exist at its root, the
    root is the working directory; if it exists, the root is the first
    marked directory on the chain of parents, at most 7 hops up. *)
Theorem NewConfig_root (w : W) (cfg : Config) :
  NewConfig w = (cfg, None) →
  Static cfg = NewConfig_Static
  ∧ os_Getwd w = (WD (Runtime cfg), None)
  ∧ WD (Runtime cfg) ≠ ""
  ∧ (RootConfigExists w cfg = false →
     ROOT (Runtime cfg) = WD (Runtime cfg))
  ∧ (RootConfigExists w cfg = true →
     ∃ k, (k ≤ 7)%nat
       ∧ ROOT (Runtime cfg) = ancestor k (WD (Runtime cfg))
       ∧ ∀ j, (j < k)%nat →
           marked w cfg (ancestor j (WD (Runtime cfg))) = false).
Proof.
  unfold NewConfig. destruct (os_Getwd w) as [wd [err|]] eqn:Hwd; [done|].
  simpl.
  destruct (getRootPath w _) as [root [err|]] eqn:Hroot; [done|].
  intros [= <-]. simpl.
  apply getRootPath_sound in Hroot as (Hne & k & Hk & Hbelow & Hend).
  simpl in *. split_and!; [done..| |].
  - intros Hno. destruct Hend as [[Hm ->]|(_ & _ & ->)]; [|done].
    unfold RootConfigExists, marked in *. simpl in *. congruence.
  - intros Hyes. destruct Hend as [[Hm ->]|(Hm & _ & ->)].
    + exists k. split_and!; [lia|done|]. intros j Hj. by apply Hbelow.
    + exists 0%nat. split_and!; [lia|done|intros j; lia].
Qed.

End RootMore.

(** ** More on module discovery *)

Section DiscoveryMore.
Context {fp : Filepath} {codec : Toml} {rootCodec : TomlRoot} {W : Type}
        {fsys : FsI W} {exe : ExecI W} {sys : OS W}.

(** What the callback adds for an entry it accepts: nothing, or the one
    module loaded from a directory that holds the module file. *)
Lemma walkFn_adds w c e :
  snd (walkFn w c [] e) = None →
  (fst (walkFn w c [] e) = []
   ∧ ¬ (we_IsDir e = true
        ∧ fs_Exists w (filepath_Join [we_path e; ModuleFileName (Static c)])
          = true))
  ∨ (∃ m, fst (walkFn w c [] e) = [m]
       ∧ we_IsDir e = true
       ∧ fs_Exists w (filepath_Join [we_path e; ModuleFileName (Static c)])
         = true
       ∧ filepath_Rel (ROOT (Runtime c)) (we_path e) = (RelativePath m, None)
       ∧ LoadModuleConfig w c (RelativePath m) = (m, None)
       ∧ Name m = filepath_Base (RelativePath m)).
Proof.
  unfold walkFn. destruct (we_err e); [done|].
  destruct (we_IsDir e); [|intros _; left; split; [done|by intros [? _]]].
  destruct (fs_Exists w _) eqn:Hex;
    [|intros _; left; split; [done|by intros [_ ?]]].
  destruct (filepath_Rel _ _) as [rel [err|]] eqn:Hrel; [done|].
  destruct (LoadModuleConfig w c rel) as [m [err|]] eqn:Hload; [done|].
  intros _. right. exists m. simpl.
  assert (RelativePath m = rel ∧ Name m = filepath_Base rel) as [Hr Hn].
  { unfold LoadModuleConfig in Hload.
    destruct (fs_Read w _) as [file [err|]]; [done|].
    destruct (toml_Unmarshal file) as [scripts [err|]]; [done|].
    by injection Hload as <-. }
  rewrite Hr. by split_and!.
Qed.

(** X4.  The modules [GetModules] returns without error are, one for
    one, the directories of the walk that hold the module file: each
    module was loaded from such a directory, its relative path is that
    directory's path relative to the root, and its name is the base name
    of that path, whatever the document says; there are as many modules
    as such directories, and the state is left as it was. *)
Theorem GetModules_complete (c : Config) (s s' : Sys W)
    (modules : list ModuleConfig) :
  GetModules c s = ((modules, None), s') →
  let isModuleDir := λ e,
    we_IsDir e = true
    ∧ fs_Exists (world s)
        (filepath_Join [we_path e; ModuleFileName (Static c)]) = true in
  (∀ m, m ∈ modules →
     Name m = filepath_Base (RelativePath m)
     ∧ LoadModuleConfig (world s) c (RelativePath m) = (m, None)
     ∧ ∃ e, e ∈ filepath_Walk (world s) (ROOT (Runtime c))
         ∧ isModuleDir e
         ∧ filepath_Rel (ROOT (Runtime c)) (we_path e)
           = (RelativePath m, None))
  ∧ length modules
    = length (filter isModuleDir (filepath_Walk (world s) (ROOT (Runtime c))))
  ∧ s' = s.
Proof.
  intros Hrun isModuleDir.
  pose proof (GetModules_result c s) as Hres. rewrite Hrun in Hres.
  simpl in Hres. unfold walked in Hres.
  destruct (Walk_loop _ _ _ _) as [found [err|]] eqn:Hwalk; [done|].
  injection Hres as ->.
  pose proof (Walk_loop_None _ _ _ _ _ Hwalk) as Hok.
  rewrite (Walk_loop_clean _ _ _ _ Hok) in Hwalk. injection Hwalk as <-.
  simpl. split_and!.
  - intros m Hm. rewrite sort_Slice_Permutation in Hm.
    apply list_elem_of_bind in Hm as (e & Hm & He).
    destruct (walkFn_adds (world s) c e) as [[Hnil _]|(m' & Hone & ?)].
    { by apply (proj1 (Forall_forall _ _) Hok). }
    { rewrite Hnil in Hm. by apply elem_of_nil in Hm. }
    rewrite Hone in Hm. apply list_elem_of_singleton in Hm as ->.
    split_and!; [tauto..|]. exists e. unfold isModuleDir. tauto.
  - rewrite sort_Slice_Permutation. clear Hrun.
    induction Hok as [|e entries He _ IH]; [done|].
    rewrite bind_cons, length_app, filter_cons, IH.
    destruct (walkFn_adds (world s) c e He) as [[-> Hno]|(m & -> & ? & ? & _)].
    + by rewrite decide_False.
    + by rewrite decide_True.
  - unfold GetModules, mbind, M_bind, getWorld in Hrun. simpl in Hrun.
    rewrite (Walk_loop_clean _ _ _ _ Hok) in Hrun. by injection Hrun.
Qed.

(** X5.  The first entry of the walk that the callback refuses ends the
    discovery: [GetModules] returns that entry's error with the modules
    collected before it, in the order of the walk and not sorted, prints
    the error once as a warning and changes nothing else; what the walk
    would have visited afterwards plays no part.  An entry the walk could
    not read is refused with the walk's own error. *)
Theorem GetModules_first_error (c : Config) (s : Sys W)
    (before after : list WalkEntry) (e : WalkEntry) (err : string) :
  filepath_Walk (world s) (ROOT (Runtime c)) = before ++ e :: after →
  Forall (λ e', snd (walkFn (world s) c [] e') = None) before →
  snd (walkFn (world s) c [] e) = Some err →
  fst (GetModules c s)
  = (before ≫= (λ e', fst (walkFn (world s) c [] e')), Some err)
  ∧ logged (snd (GetModules c s)) = logged s ++ [(Warning, err)]
  ∧ world (snd (GetModules c s)) = world s
  ∧ calls (snd (GetModules c s)) = calls s
  ∧ (∀ e' msg, we_err e' = Some msg →
       walkFn (world s) c [] e' = ([], Some msg)).
Proof.
  intros Hwalk Hok He.
  assert (∀ modules,
            Walk_loop (world s) c (before ++ e :: after) modules
            = (modules ++ (before ≫= λ e', fst (walkFn (world s) c [] e')),
               Some err)) as Hloop.
  { clear Hwalk. induction Hok as [|e0 before He0 _ IH]; intros modules; simpl.
    - rewrite walkFn_acc, He.
      assert (fst (walkFn (world s) c [] e) = []) as ->; [|done].
      revert He. unfold walkFn. destruct (we_err e); [done|].
      destruct (we_IsDir e); [|done]. destruct (fs_Exists _ _); [|done].
      destruct (filepath_Rel _ _) as [rel [?|]]; [done|].
      by destruct (LoadModuleConfig _ _ _) as [m [?|]].
    - rewrite walkFn_acc, He0, IH. by rewrite (assoc_L (++)). }
  unfold GetModules, mbind, M_bind, getWorld. simpl.
  rewrite Hwalk, Hloop. simpl. split_and!; [done..|].
  intros e' msg Hmsg. unfold walkFn. by rewrite Hmsg.
Qed.

End DiscoveryMore.

(** ** More on the root document and on init *)

Section InitMore.
Context {fp : Filepath} {txt : Text} {codec : Toml} {rootCodec : TomlRoot}
        {W : Type}
        {fsys : FsI W} {exe : ExecI W} {sys : OS W}.

(** X6.  A root configuration that cannot be encoded is not written: the
    encoder's error comes back and the state is untouched.  One that is
    written without error is read back unchanged by [LoadRootConfig],
    provided the codec decodes what it encoded for it and the file system
    hands back what was written. *)
Theorem WriteRootConfig_LoadRootConfig (c : Config) (rc : RootConfig)
    (s : Sys W) :
  (∀ content err, toml_Marshal rc = (content, Some err) →
     WriteRootConfig c rc s = (Some err, s))
  ∧ (toml_Unmarshal_root (fst (toml_Marshal rc)) = (rc, None) →
     (∀ w p content w',
        fs_Write w p content = (w', None) → fs_Read w' p = (content, None)) →
     fst (WriteRootConfig c rc s) = None →
     LoadRootConfig (world (snd (WriteRootConfig c rc s))) c = (rc, None)
     ∧ calls (snd (WriteRootConfig c rc s))
       = calls s
         ++ [CallWrite
               (filepath_Join [ROOT (Runtime c); RootFileName (Static c)])
               (fst (toml_Marshal rc))]).
Proof.
  unfold WriteRootConfig, Write, act, LoadRootConfig. split.
  - intros content err ->. done.
  - destruct (toml_Marshal rc) as [content [err|]]; simpl; [done|].
    intros Hdec Hlaw.
    destruct (fs_Write _ _ _) as [w' [err|]] eqn:Hw; simpl; [done|].
    intros _. by rewrite (Hlaw _ _ _ _ Hw).
Qed.

(** Closes the goal on the calls of [Init] once they are known. *)
Ltac init_calls gos ws :=
  exists gos, ws; simpl; rewrite ?app_nil_r, <- ?(assoc_L (++)); simpl;
  split_and!; eauto.

(** X7.  [init] with a name: the name prompt is skipped and standard
    input is read once, for the answer to the vendor question, which is
    the first line of what that read returns (fewer than 4096 bytes, as
    the reader asks for no more); the reads to come are left.  The root
    document, when it is written, holds the name as given, version 0.1.0,
    the workspace strategy, and a vendor flag that is true exactly when
    [strings.TrimSpace] of the answer is [y].  Before it at most
    [go work init] is called, and only when there is no [go.work]; a
    success has written the document. *)
Theorem Init_named (cfg : Config) (args : list string) (s : Sys W)
    (name reply : string) (rest : list string) :
  RootConfigExists (world s) cfg = false →
  args !! 0%nat = Some name →
  name ≠ "" →
  stdin s = reply :: rest →
  (String.length reply < 4096)%nat →
  let rc := {| rc_Name := name; rc_Version := "0.1.0";
               rc_Strategy := "workspace";
               rc_Vendor := String.eqb (strings_TrimSpace (firstLine reply)) "y";
               rc_Scripts := ∅ |} in
  let write := CallWrite
    (filepath_Join [ROOT (Runtime cfg); RootFileName (Static cfg)])
    (fst (toml_Marshal rc)) in
  let go := CallGoCommand (ROOT (Runtime cfg)) ["work"; "init"] in
  let r := Init cfg args s in
  stdin (snd r) = rest
  ∧ ∃ gos ws,
      calls (snd r) = calls s ++ gos ++ ws
      ∧ (gos = [] ∨ (gos = [go] ∧ GoWorkspaceExists (world s) cfg = false))
      ∧ (ws = [] ∨ ws = [write])
      ∧ (fst r = None → ws = [write]).
Proof.
  intros Hroot Hname Hne%String.eqb_neq Hin _ rc write go r. subst r.
  unfold Init, WriteRootConfig, Write, GoCommand, act, ReadString,
    mbind, M_bind, mret, M_ret, getWorld, log. simpl.
  rewrite Hroot, Hname. simpl. rewrite Hne, Hin. simpl.
  fold rc. destruct (GoWorkspaceExists (world s) cfg) eqn:Hgo; simpl.
  - destruct (toml_Marshal rc) as [content [err|]] eqn:Hm; simpl.
    + split; [done|]. by init_calls (@nil Call) (@nil Call).
    + destruct (fs_Write _ _ _) as [w' [err|]]; simpl;
        (split; [done|]; init_calls (@nil Call) [write]).
  - destruct (x_GoCommand _ _ _) as [w1 [err|]]; simpl.
    + split; [done|]. by init_calls [go] (@nil Call).
    + destruct (toml_Marshal rc) as [content [err|]] eqn:Hm; simpl.
      * split; [done|]. by init_calls [go] (@nil Call).
      * destruct (fs_Write _ _ _) as [w' [err|]]; simpl;
          (split; [done|]; init_calls [go] [write]).
Qed.

(** X8.  [init] without a name, when standard input delivers its data in
    two reads at least (as a terminal does, line by line), each of fewer
    than 4096 bytes: the name is asked for, the prompt showing what
    [fmt.Sprintf] makes of the base name of the root between brackets,
    and each of the two questions is answered by the first line of one
    read.  The name written is [strings.TrimSpace] of the first answer,
    or the base name of the root when that is empty; the vendor flag is
    true exactly when [strings.TrimSpace] of the second answer is [y]. *)
Theorem Init_prompted (cfg : Config) (args : list string) (s : Sys W)
    (answer reply : string) (rest : list string) :
  RootConfigExists (world s) cfg = false →
  default "" (args !! 0%nat) = "" →
  stdin s = answer :: reply :: rest →
  (String.length answer < 4096)%nat →
  (String.length reply < 4096)%nat →
  let name :=
    if String.eqb (strings_TrimSpace (firstLine answer)) ""
    then filepath_Base (ROOT (Runtime cfg))
    else strings_TrimSpace (firstLine answer) in
  let rc := {| rc_Name := name; rc_Version := "0.1.0";
               rc_Strategy := "workspace";
               rc_Vendor := String.eqb (strings_TrimSpace (firstLine reply)) "y";
               rc_Scripts := ∅ |} in
  let write := CallWrite
    (filepath_Join [ROOT (Runtime cfg); RootFileName (Static cfg)])
    (fst (toml_Marshal rc)) in
  let go := CallGoCommand (ROOT (Runtime cfg)) ["work"; "init"] in
  let r := Init cfg args s in
  stdin (snd r) = rest
  ∧ head (drop (length (logged s)) (logged (snd r)))
    = Some (Raw, "Enter the monorepo name: "
                 +:+ InfoColor
                       (fmt_Sprintf ("default: ("
                                     +:+ filepath_Base (ROOT (Runtime cfg))
                                     +:+ ")")) +:+ " ")
  ∧ ∃ gos ws,
      calls (snd r) = calls s ++ gos ++ ws
      ∧ (gos = [] ∨ (gos = [go] ∧ GoWorkspaceExists (world s) cfg = false))
      ∧ (ws = [] ∨ ws = [write])
      ∧ (fst r = None → ws = [write]).
Proof.
  intros Hroot Hname Hin _ _ name rc write go r. subst r.
  unfold Init, WriteRootConfig, Write, GoCommand, act, ReadString,
    mbind, M_bind, mret, M_ret, getWorld, log. simpl.
  rewrite Hroot, Hname. simpl. rewrite Hin. simpl.
  fold name rc.
  destruct (GoWorkspaceExists (world s) cfg) eqn:Hgo; simpl.
  - destruct (toml_Marshal rc) as [content [err|]] eqn:Hm; simpl.
    + split_and!; [done| |by init_calls (@nil Call) (@nil Call)].
      rewrite <- !(assoc_L (++)). by rewrite drop_app_length.
    + destruct (fs_Write _ _ _) as [w' [err|]]; simpl;
        (split_and!; [done| |init_calls (@nil Call) [write]];
         rewrite <- !(assoc_L (++)); by rewrite drop_app_length).
  - destruct (x_GoCommand _ _ _) as [w1 [err|]]; simpl.
    + split_and!; [done| |by init_calls [go] (@nil Call)].
      rewrite <- !(assoc_L (++)). by rewrite drop_app_length.
    + destruct (toml_Marshal rc) as [content [err|]] eqn:Hm; simpl.
      * split_and!; [done| |by init_calls [go] (@nil Call)].
        rewrite <- !(assoc_L (++)). by rewrite drop_app_length.
      * destruct (fs_Write _ _ _) as [w' [err|]]; simpl;
          (split_and!; [done| |init_calls [go] [write]];
           rewrite <- !(assoc_L (++)); by rewrite drop_app_length).
Qed.

(** X9.  [init] that runs out of input fails with "failed to read
    input: EOF" before anything is done: with no line at all, or, when
    the name has to be asked, with one line only.  No collaborator is
    called and the world is as before. *)
Theorem Init_input_exhausted (cfg : Config) (args : list string)
    (s : Sys W) :
  RootConfigExists (world s) cfg = false →
  stdin s = []
  ∨ (default "" (args !! 0%nat) = "" ∧ ∃ answer, stdin s = [answer]) →
  fst (Init cfg args s) = Some "failed to read input: EOF"
  ∧ calls (snd (Init cfg args s)) = calls s
  ∧ world (snd (Init cfg args s)) = world s
  ∧ stdin (snd (Init cfg args s)) = [].
Proof.
  intros Hroot Hin.
  unfold Init, ReadString, mbind, M_bind, mret, M_ret, getWorld, log. simpl.
  rewrite Hroot.
  destruct Hin as [Hin|(Hname & answer & Hin)].
  - destruct (String.eqb (default "" (args !! 0%nat)) ""); simpl;
      rewrite Hin; simpl; by rewrite ?Hin.
  - rewrite Hname. simpl. by rewrite Hin.
Qed.

(** X10.  When there is no [go.work] and [go work init] fails, [init]
    returns that failure and writes no root document: the call to the go
    tool is the only call made, and the world is as that call left it.
    This holds whenever the questions asked get their answers: with a
    name, when there is a read to answer the vendor question; without,
    when there are two reads, one for each question, the first of fewer
    than 4096 bytes. *)
Theorem Init_go_failure (cfg : Config) (args : list string) (s : Sys W)
    (w' : W) (err : string) :
  RootConfigExists (world s) cfg = false →
  GoWorkspaceExists (world s) cfg = false →
  (default "" (args !! 0%nat) ≠ "" ∧ ∃ reply rest, stdin s = reply :: rest)
  ∨ (default "" (args !! 0%nat) = ""
     ∧ ∃ answer reply rest,
         stdin s = answer :: reply :: rest
         ∧ (String.length answer < 4096)%nat) →
  x_GoCommand (world s) (ROOT (Runtime cfg)) ["work"; "init"]
  = (w', Some err) →
  fst (Init cfg args s) = Some err
  ∧ calls (snd (Init cfg args s))
    = calls s ++ [CallGoCommand (ROOT (Runtime cfg)) ["work"; "init"]]
  ∧ world (snd (Init cfg args s)) = w'.
Proof.
  intros Hroot Hgo Hin Hfail.
  unfold Init, GoCommand, act, ReadString,
    mbind, M_bind, mret, M_ret, getWorld, log. simpl.
  rewrite Hroot.
  destruct Hin as [(Hname%String.eqb_neq & reply & rest & Hin)
                  |(Hname & answer & reply & rest & Hin & _)].
  - rewrite Hname. simpl. rewrite Hin. simpl. rewrite Hgo. simpl.
    by rewrite Hfail.
  - rewrite Hname. simpl. rewrite Hin. simpl. rewrite Hgo. simpl.
    by rewrite Hfail.
Qed.

End InitMore.

(** ** More on dispatch *)

Section DispatchMore.
Context {fp : Filepath} {W : Type} {exe : ExecI W}.

(** A body that is not empty is a script the module has. *)
Lemma map_index_hasScript scriptName module :
  map_index (Scripts module) scriptName ≠ "" → hasScript scriptName module.
Proof.
  intros Hbody. destruct (decide (hasScript scriptName module)) as [|Hno];
    [done|].
  destruct Hbody. by apply map_index_empty, lacksScript_spec.
Qed.

(** When the planned calls succeed one after the other from the world
    the loop starts in, all of them are made and the loop succeeds. *)
Lemma execute_succeed cfg scriptName modules s w' :
  succeed (world s) (planned cfg scriptName modules) w' →
  fst (execute cfg scriptName false modules s) = None
  ∧ world (snd (execute cfg scriptName false modules s)) = w'
  ∧ calls (snd (execute cfg scriptName false modules s))
    = calls s ++ planned cfg scriptName modules.
Proof.
  intros Hok.
  destruct (execute_outcome cfg scriptName modules s)
    as [(Hr & Hs & Hc)
       |(before & dir & script & after & w & err & Hp & Hs & Hf & _)].
  - split_and!; [done| |done]. by eapply succeed_inj.
  - exfalso. rewrite Hp in Hok.
    by apply (succeed_no_failure _ _ _ _ _ _ _ _ _ Hs Hf Hok).
Qed.

(** The log only grows while scripts are executed. *)
Lemma execute_log_grows cfg scriptName dryRun modules s :
  logged s `prefix_of` logged (snd (execute cfg scriptName dryRun modules s)).
Proof.
  revert s. induction modules as [|m modules IH]; intros s; [done|].
  simpl. unfold mbind, M_bind, BashCommand, act. simpl.
  destruct (String.eqb _ ""); simpl.
  { etrans; [|apply IH]. by apply prefix_app_r. }
  destruct dryRun.
  { etrans; [|apply IH]. by apply prefix_app_r. }
  destruct (x_BashCommand _ _ _) as [w' [err|]]; simpl.
  - by apply prefix_app_r.
  - etrans; [|apply IH]. by apply prefix_app_r.
Qed.

(** What the logger writes during a run is the beginning of what it
    writes during the dry run, and all of it when the run succeeds. *)
Lemma execute_dry_log cfg scriptName modules s1 s2 :
  logged s1 = logged s2 →
  logged (snd (execute cfg scriptName false modules s1))
    `prefix_of` logged (snd (execute cfg scriptName true modules s2))
  ∧ (fst (execute cfg scriptName false modules s1) = None →
     logged (snd (execute cfg scriptName false modules s1))
     = logged (snd (execute cfg scriptName true modules s2))).
Proof.
  revert s1 s2. induction modules as [|m modules IH]; intros s1 s2 Hlog;
    simpl; [by rewrite Hlog|].
  unfold mbind, M_bind, BashCommand, act. simpl.
  destruct (String.eqb _ ""); simpl.
  { apply IH. simpl. by rewrite Hlog. }
  destruct (x_BashCommand _ _ _) as [w' [err|]]; simpl.
  - split; [|done]. rewrite Hlog.
    apply (execute_log_grows cfg scriptName true modules
             (Build_Sys _ _ _ _)).
  - apply IH. simpl. by rewrite Hlog.
Qed.

(** Every call [dispatch] makes is a shell call for one of its targets
    that has the script. *)
Lemma dispatch_calls_scripts (cfg : Config) (scriptName : string)
    (allowMissing dryRun : bool) (modules : list ModuleConfig) (s : Sys W) :
  ∃ new,
    calls (snd (dispatch cfg scriptName allowMissing dryRun modules s))
    = calls s ++ new
    ∧ ∀ c, c ∈ new →
        ∃ m, m ∈ modules
          ∧ hasScript scriptName m
          ∧ map_index (Scripts m) scriptName ≠ ""
          ∧ c = CallBashCommand
                  (filepath_Join [ROOT (Runtime cfg); RelativePath m])
                  (map_index (Scripts m) scriptName).
Proof.
  destruct (dispatch_decides cfg scriptName allowMissing dryRun modules s)
    as (s1 & s2 & (_ & Hc1 & _) & (_ & Hc2 & _) & ->).
  assert (∀ l : list Call, l = l ++ []) as Hnil
    by (intros l; by rewrite app_nil_r).
  destruct (decide (Forall _ modules)).
  { exists []. simpl. split; [by rewrite Hc1, app_nil_r|].
    intros c Hc. by apply elem_of_nil in Hc. }
  destruct (decide (Exists _ modules ∧ allowMissing = false)).
  { exists []. simpl. split; [by rewrite Hc1, app_nil_r|].
    intros c Hc. by apply elem_of_nil in Hc. }
  destruct dryRun.
  - destruct (execute_dry cfg scriptName modules s2) as (_ & _ & Hc & _).
    exists []. simpl in *. split; [by rewrite Hc, Hc2, app_nil_r|].
    intros c Hin. by apply elem_of_nil in Hin.
  - destruct (execute_trace cfg scriptName modules s2)
      as (made & rest & Hp & Hc & _). simpl in Hc.
    exists made. split; [by rewrite Hc, Hc2|].
    intros c Hin.
    assert (c ∈ planned cfg scriptName modules) as Hplanned.
    { rewrite Hp. apply elem_of_app. by left. }
    unfold planned in Hplanned.
    apply list_elem_of_fmap in Hplanned as (m & -> & Hm).
    apply list_elem_of_filter in Hm as [Hbody Hm].
    exists m. split_and!; [done|by apply map_index_hasScript|done..].
Qed.

(** X11.  [allowMissing] matters only when some targets have the script
    and some lack it: when all have it, or all lack it, [dispatch] returns
    the same result and leaves the same state for both values of the
    flag. *)
Theorem dispatch_allowMissing_irrelevant (cfg : Config) (scriptName : string)
    (dryRun : bool) (modules : list ModuleConfig) (s : Sys W) :
  Forall (hasScript scriptName) modules
  ∨ Forall (λ m, ¬ hasScript scriptName m) modules →
  dispatch cfg scriptName true dryRun modules s
  = dispatch cfg scriptName false dryRun modules s.
Proof.
  intros Hcase. unfold dispatch, mbind, M_bind. simpl.
  rewrite modulesWithoutScript_filter, length_fmap.
  destruct Hcase as [Hall|Hnone].
  - assert (filter (λ m, ¬ hasScript scriptName m) modules = []) as ->.
    { induction Hall as [|m modules Hm _ IH]; [done|].
      by rewrite filter_cons, decide_False by tauto. }
    simpl. by destruct (0 =? length modules)%nat.
  - apply (proj2 (length_filter_all _ _)), Nat.eqb_eq in Hnone.
    by rewrite Hnone.
Qed.

(** X12.  A dry run logs what the run logs.  The lines the logger
    writes during a run are the beginning of the lines it writes during
    the dry run from the same state, and all of them when the run
    succeeds; what the scripts themselves print is no line of the logger
    and is not spoken of.  The dry run fails only when the check refuses,
    in which case the run fails in the same way. *)
Theorem dispatch_dry_prints (cfg : Config) (scriptName : string)
    (allowMissing : bool) (modules : list ModuleConfig) (s : Sys W) :
  let real := dispatch cfg scriptName allowMissing false modules s in
  let dry := dispatch cfg scriptName allowMissing true modules s in
  logged (snd real) `prefix_of` logged (snd dry)
  ∧ (fst real = None →
     fst dry = None ∧ logged (snd real) = logged (snd dry))
  ∧ (∀ err, fst dry = Some err → real = dry).
Proof.
  unfold dispatch, mbind, M_bind. simpl.
  destruct (length _ =? length modules)%nat; simpl; [done|].
  destruct (0 <? length _)%nat, allowMissing; simpl; try done.
  all: match goal with
  | |- context [execute ?c ?n true ?ms ?s1] =>
      destruct (execute_dry_log c n ms s1 s1 eq_refl) as [Hpre Heq];
      destruct (execute_dry c n ms s1) as (Hnone & _)
  end.
  all: simpl in Hnone; split_and!; [done|by split; [|apply Heq]|].
  all: intros err Herr; congruence.
Qed.

End DispatchMore.

(** ** More on the list and run commands *)

Section RunMore.
Context {fp : Filepath} {codec : Toml} {W : Type}
        {fsys : FsI W} {exe : ExecI W} {sys : OS W}.

Lemma List_print_frame (modules : list ModuleConfig) (s : Sys W) :
  world (snd (List_print modules s)) = world s
  ∧ calls (snd (List_print modules s)) = calls s
  ∧ stdin (snd (List_print modules s)) = stdin s
  ∧ logged (snd (List_print modules s))
    = logged s ++ ((λ m, (Plain, Name m)) <$> modules).
Proof.
  revert s. induction modules as [|m modules IH]; intros s; simpl.
  { by rewrite app_nil_r. }
  unfold mbind, M_bind. simpl.
  match goal with
  | |- context [List_print modules ?s1] =>
      destruct (IH s1) as (-> & -> & -> & ->)
  end.
  simpl. by rewrite <- (assoc_L (++)).
Qed.

(** X13.  [list] without a root document fails with "monorepo not found
    at" the root and does nothing.  With one, and a discovery that
    succeeds, it prints the names of the modules, one line for each, in
    ascending order, or the one line "no modules found"; a discovery that
    fails is printed as a warning and returned.  In no case is a
    collaborator called or the world changed. *)
Theorem List_prints (cfg : Config) (s : Sys W) :
  (RootConfigExists (world s) cfg = false →
   List cfg s = (Some ("monorepo not found at " +:+ ROOT (Runtime cfg)), s))
  ∧ (RootConfigExists (world s) cfg = true →
     ∀ found, walked (world s) cfg = (found, None) →
       fst (List cfg s) = None
       ∧ logged (snd (List cfg s))
         = logged s
           ++ (if decide (found = []) then [(Info, "no modules found")]
               else (λ m, (Plain, Name m)) <$> sort_Slice less_Name found)
       ∧ StronglySorted String.le (Name <$> sort_Slice less_Name found))
  ∧ (RootConfigExists (world s) cfg = true →
     ∀ found err, walked (world s) cfg = (found, Some err) →
       fst (List cfg s) = Some err
       ∧ logged (snd (List cfg s)) = logged s ++ [(Warning, err)])
  ∧ world (snd (List cfg s)) = world s
  ∧ calls (snd (List cfg s)) = calls s
  ∧ stdin (snd (List cfg s)) = stdin s.
Proof.
  unfold List, GetModules, walked, mbind, M_bind, mret, M_ret, getWorld.
  simpl. destruct (RootConfigExists (world s) cfg); simpl.
  2: { split_and!; done. }
  destruct (Walk_loop _ _ _ _) as [found [err|]]; simpl.
  { split_and!; try done. by intros _ ? ? [= <- <-]. }
  assert (length (sort_Slice less_Name found) = length found) as Hlen
    by (by rewrite sort_Slice_Permutation).
  destruct found as [|m found]; simpl in *.
  - split_and!; try done. intros _ ? [= <-]. split_and!; [done..|].
    apply sort_Slice_sorted.
  - destruct (sort_Slice less_Name (m :: found)) as [|m' sorted] eqn:Hs;
      [done|]. simpl.
    unfold mbind, M_bind. simpl.
    match goal with
    | |- context [List_print sorted ?s1] =>
        destruct (List_print_frame sorted s1) as (Hw & Hc & Hi & Hl)
    end.
    destruct (List_print sorted _) as [[] s2]. simpl in *.
    split_and!; try done. intros _ ? [= <-]. rewrite Hs.
    split_and!; [done| |rewrite <- Hs; apply sort_Slice_sorted].
    rewrite Hl. by rewrite <- (assoc_L (++)).
Qed.

(** X14.  The two guards of [run] come before everything else, and in
    this order: without a root document it fails with "monorepo not found
    at" the root, even when no script name is given; with one and no
    script name it fails with the usage message.  In both cases nothing
    is printed and nothing is done. *)
Theorem Run_guards (cfg : Config) (args : list string) (target : string)
    (dryRun allowMissing : bool) (s : Sys W) :
  (RootConfigExists (world s) cfg = false →
   Run cfg args target dryRun allowMissing s
   = (Some ("monorepo not found at " +:+ ROOT (Runtime cfg)), s))
  ∧ (RootConfigExists (world s) cfg = true →
     default "" (args !! 0%nat) = "" →
     Run cfg args target dryRun allowMissing s
     = (Some "no script name provided, usage: gorepo run [script_name]", s)).
Proof.
  unfold Run, mbind, M_bind, mret, M_ret, getWorld. simpl. split.
  - by intros ->.
  - by intros -> ->.
Qed.

(** X15.  [run] with the target [root] alone succeeds and does nothing:
    it says that running in root is not supported yet, discovers no
    module, not even when the walk would fail, and calls nobody,
    whichever script is named. *)
Theorem Run_target_root (cfg : Config) (args : list string)
    (dryRun allowMissing : bool) (s : Sys W) (scriptName : string) :
  RootConfigExists (world s) cfg = true →
  args !! 0%nat = Some scriptName →
  scriptName ≠ "" →
  let r := Run cfg args "root" dryRun allowMissing s in
  fst r = None
  ∧ calls (snd r) = calls s
  ∧ world (snd r) = world s
  ∧ last (logged (snd r))
    = Some (Verbose, "running script in root not supported yet")
  ∧ Forall (λ line, fst line = Verbose)
      (drop (length (logged s)) (logged (snd r))).
Proof.
  intros Hroot Hname Hne%String.eqb_neq.
  unfold Run, mbind, M_bind, mret, M_ret, getWorld. simpl.
  rewrite Hroot, Hname. simpl. rewrite Hne. simpl.
  split_and!; [done..|by rewrite last_snoc|].
  rewrite <- !(assoc_L (++)), drop_app_length. simpl.
  by repeat constructor.
Qed.

(** X16.  When discovery fails, [run] returns its error: no module is
    selected, no script is checked or executed, and the warning of the
    discovery is the last line printed. *)
Theorem Run_discovery_error (cfg : Config) (args : list string)
    (target : string) (dryRun allowMissing : bool) (s : Sys W)
    (scriptName : string) (found : list ModuleConfig) (err : string) :
  RootConfigExists (world s) cfg = true →
  args !! 0%nat = Some scriptName →
  scriptName ≠ "" →
  "root" ∉ strings.Split target "," →
  walked (world s) cfg = (found, Some err) →
  let r := Run cfg args target dryRun allowMissing s in
  fst r = Some err
  ∧ calls (snd r) = calls s
  ∧ world (snd r) = world s
  ∧ last (logged (snd r)) = Some (Warning, err).
Proof.
  intros Hroot Hname Hne%String.eqb_neq [Hrw Hfirst]%no_root_token Hwalk.
  unfold Run, GetModules, mbind, M_bind, mret, M_ret, getWorld. simpl.
  rewrite Hroot, Hname. simpl. rewrite Hne. rewrite Hrw, Hfirst.
  unfold walked in Hwalk. simpl. rewrite Hwalk. simpl.
  by rewrite last_snoc.
Qed.

(** X17.  A run that passes the check, and whose shell calls succeed
    when made one after the other from the world the run starts in,
    returns success after calling the shell once for each selected module
    that has the script, in the order of discovery, and for no other:
    with [allowMissing] the modules that lack the script are skipped.
    The world is left as the last call left it. *)
Theorem Run_success (cfg : Config) (args : list string) (target : string)
    (allowMissing : bool) (s : Sys W) (scriptName : string)
    (found : list ModuleConfig) (w' : W) :
  let modules :=
    selectModules (strings.Split target ",") (sort_Slice less_Name found) in
  let r := Run cfg args target false allowMissing s in
  RootConfigExists (world s) cfg = true →
  args !! 0%nat = Some scriptName →
  scriptName ≠ "" →
  "root" ∉ strings.Split target "," →
  walked (world s) cfg = (found, None) →
  Exists (hasScript scriptName) modules →
  Forall (hasScript scriptName) modules ∨ allowMissing = true →
  succeed (world s) (planned cfg scriptName modules) w' →
  fst r = None
  ∧ world (snd r) = w'
  ∧ calls (snd r) = calls s ++ planned cfg scriptName modules
  ∧ planned cfg scriptName modules
    = (λ m, CallBashCommand
              (filepath_Join [ROOT (Runtime cfg); RelativePath m])
              (map_index (Scripts m) scriptName))
      <$> filter (hasScript scriptName) modules.
Proof.
  intros modules r Hroot Hname Hne Hno Hwalk Hsome Hpass Hok.
  destruct (Run_reaches_dispatch cfg args target false allowMissing s
              scriptName found) as (s1 & (Hw1 & Hc1 & _) & Heq); try done.
  subst r. rewrite Heq. fold modules.
  destruct (dispatch_decides cfg scriptName allowMissing false modules s1)
    as (s2 & s3 & _ & (Hw3 & Hc3 & _) & ->).
  rewrite decide_False.
  2: { intros Hall. apply Exists_exists in Hsome as (m & Hm & Hhas).
       by apply (proj1 (Forall_forall _ _) Hall m Hm). }
  rewrite decide_False.
  2: { intros [Hlack Ham]. destruct Hpass as [Hall|Ham']; [|congruence].
       apply Exists_exists in Hlack as (m & Hm & Hno').
       by apply Hno', (proj1 (Forall_forall _ _) Hall m Hm). }
  rewrite <- Hw1, <- Hw3 in Hok.
  destruct (execute_succeed cfg scriptName modules s3 w' Hok)
    as (-> & -> & ->).
  split_and!; [done|done|by rewrite Hc3, Hc1|].
  unfold planned. f_equal. apply list_filter_iff. intros m. split.
  - apply map_index_hasScript.
  - intros Hhas Hbody%map_index_empty%lacksScript_spec. done.
Qed.

(** X18.  Whatever its arguments, [run] calls nothing but the shell:
    it writes no file and does not run the go tool.  Every call
    [dispatch] makes is for one of its targets that has the script, in
    that module's directory under the root, with the module's body for
    the script, which is not empty. *)
Theorem Run_calls_only_scripts (cfg : Config) (args : list string)
    (target : string) (dryRun allowMissing : bool) (s : Sys W)
    (scriptName : string) (modules : list ModuleConfig) :
  (∃ new,
     calls (snd (Run cfg args target dryRun allowMissing s)) = calls s ++ new
     ∧ ∀ c, c ∈ new →
         ∃ dir script, c = CallBashCommand dir script ∧ script ≠ "")
  ∧ (∃ new,
       calls (snd (dispatch cfg scriptName allowMissing dryRun modules s))
       = calls s ++ new
       ∧ ∀ c, c ∈ new →
           ∃ m, m ∈ modules
             ∧ hasScript scriptName m
             ∧ map_index (Scripts m) scriptName ≠ ""
             ∧ c = CallBashCommand
                     (filepath_Join [ROOT (Runtime cfg); RelativePath m])
                     (map_index (Scripts m) scriptName)).
Proof.
  split; [|apply dispatch_calls_scripts].
  assert (∀ s' : Sys W, calls s' = calls s →
            ∃ new, calls s' = calls s ++ new
              ∧ ∀ c, c ∈ new →
                  ∃ dir script, c = CallBashCommand dir script ∧ script ≠ "")
    as Hnone.
  { intros s' Hs'. exists []. rewrite app_nil_r. split; [done|].
    intros c Hc. by apply elem_of_nil in Hc. }
  unfold Run, mbind, M_bind, mret, M_ret, getWorld. simpl.
  destruct (RootConfigExists (world s) cfg); simpl; [|by apply Hnone].
  destruct (String.eqb (default "" (args !! 0%nat)) ""); simpl;
    [by apply Hnone|].
  destruct (rootWithOthers _ _); simpl; [by apply Hnone|].
  destruct (String.eqb (first _) "root"); simpl; [by apply Hnone|].
  match goal with
  | |- context [GetModules cfg ?s1] =>
      pose proof (GetModules_frame cfg s1) as (_ & Hc & _);
      destruct (GetModules cfg s1) as [[allModules [err|]] s2]
  end; simpl in *; [by apply Hnone|].
  match goal with
  | |- context [dispatch cfg ?n allowMissing dryRun ?ms s2] =>
      destruct (dispatch_calls_scripts cfg n allowMissing dryRun ms s2)
        as (new & Hnew & Hall)
  end.
  exists new. split; [by rewrite Hnew, Hc|].
  intros c Hin. destruct (Hall c Hin) as (m & _ & _ & Hbody & ->). eauto.
Qed.

End RunMore.

(** ** More on target selection *)

Section SelectionMore.
Context {fp : Filepath} {W : Type} {exe : ExecI W}.

(** X19.  The selection is a part of the discovered modules, in their
    order, each at most as often as it was discovered.  Every discovered
    module whose name is a token is selected, so that modules that share
    a name are selected together.  Unless [all] comes first, the order of
    the tokens and their repetition play no part: two token lists with
    the same tokens select the same modules. *)
Theorem selectModules_tokens (targets targets' : list string)
    (allModules : list ModuleConfig) :
  selectModules targets allModules `sublist_of` allModules
  ∧ (∀ m, m ∈ allModules → Name m ∈ targets →
       m ∈ selectModules targets allModules)
  ∧ (first targets ≠ "all" → first targets' ≠ "all" →
     (∀ t, t ∈ targets ↔ t ∈ targets') →
     selectModules targets allModules = selectModules targets' allModules).
Proof.
  split_and!.
  - induction allModules as [|m ms IH]; simpl; [done|].
    destruct (_ || _); by constructor.
  - intros m Hm Hname%contains_spec.
    induction allModules as [|m' ms IH]; simpl; [by apply elem_of_nil in Hm|].
    apply elem_of_cons in Hm as [->|Hm].
    + rewrite Hname, orb_true_r. by left.
    + destruct (_ || _); [right|]; by apply IH.
  - intros Hall Hall' Hsame. rewrite !selectModules_named by done.
    apply list_filter_iff. intros m. apply Hsame.
Qed.

End SelectionMore.

(** ** More on the source's [Exec] *)

Section ExecMore.
Context {W : Type} {pr : Proc W}.

(** X20.  [BashCommand] does not start the shell in a directory that is
    reported missing: it fails with "directory does not exist" and leaves
    the world as it was.  Otherwise it runs [/bin/sh -c] with the script,
    succeeds exactly when that does, and wraps its failure with the
    directory.  [GoCommand] makes no such check; its failure carries what
    the go tool printed. *)
Theorem Exec_runs (w : W) (dir script : string) (args : list string) :
  (os_IsNotExist w dir = true →
   Exec_BashCommand w dir script
   = (w, Some ("directory does not exist: " +:+ dir)))
  ∧ (∀ w', Exec_BashCommand w dir script = (w', None) ↔
       os_IsNotExist w dir = false
       ∧ cmd_Run w dir "/bin/sh" ["-c"; script] = (w', None))
  ∧ (os_IsNotExist w dir = false →
     ∀ w' cause, cmd_Run w dir "/bin/sh" ["-c"; script] = (w', Some cause) →
       Exec_BashCommand w dir script
       = (w', Some ("failed to run command in " +:+ dir +:+ ": " +:+ cause)))
  ∧ (∀ w' out, cmd_CombinedOutput w dir "go" args = (w', (out, None)) →
       Exec_GoCommand w dir args = (w', None))
  ∧ (∀ w' out cause,
       cmd_CombinedOutput w dir "go" args = (w', (out, Some cause)) →
       Exec_GoCommand w dir args
       = (w', Some ("failed to run command: " +:+ cause +:+ LF
                    +:+ "Output: " +:+ out))).
Proof.
  unfold Exec_BashCommand, Exec_GoCommand. split_and!.
  - by intros ->.
  - intros w'. destruct (os_IsNotExist w dir); [by split; [|intros []]|].
    destruct (cmd_Run _ _ _ _) as [w1 [cause|]].
    + split; [done|by intros [_ ?]].
    + split; [by intros [= ->]|by intros [_ [= ->]]].
  - by intros -> w' cause ->.
  - by intros w' out ->.
  - by intros w' out cause ->.
Qed.

End ExecMore.

(** ** The debug command *)

Section DebugTheory.
Context {fp : Filepath} {codec : Toml} {rootCodec : TomlRoot}
        {ranges : MapRange} {W : Type}
        {fsys : FsI W} {exe : ExecI W} {sys : OS W}.

(** Running a sequence: the second command starts where the first ended. *)
Lemma bind_run {A B} (m : @M W A) (f : A → @M W B) (s : Sys W) :
  (m ≫= f) s = f (fst (m s)) (snd (m s)).
Proof. unfold mbind, M_bind. by destruct (m s). Qed.

Lemma bind_getWorld {B} (f : W → @M W B) (s : Sys W) :
  (getWorld ≫= f) s = f (world s) s.
Proof. done. Qed.

(** Printing a line changes the log only. *)
Lemma log_frame (lv : Level) (msg : string) (s : Sys W) :
  world (snd (log lv msg s)) = world s
  ∧ calls (snd (log lv msg s)) = calls s
  ∧ stdin (snd (log lv msg s)) = stdin s.
Proof. done. Qed.

Lemma log_world (lv : Level) (msg : string) (s : Sys W) :
  world (snd (log lv msg s)) = world s.
Proof. done. Qed.

Lemma log_calls (lv : Level) (msg : string) (s : Sys W) :
  calls (snd (log lv msg s)) = calls s.
Proof. done. Qed.

Lemma log_stdin (lv : Level) (msg : string) (s : Sys W) :
  stdin (snd (log lv msg s)) = stdin s.
Proof. done. Qed.

(** Steps through the lines a command prints, keeping each state as the
    one before it with a line added. *)
Ltac print_lines :=
  repeat (first [rewrite bind_getWorld | rewrite bind_run]; cbv beta);
  rewrite ?log_world.

Lemma Debug_scripts_frame (entries : list (string * string)) (s : Sys W) :
  world (snd (Debug_scripts entries s)) = world s
  ∧ calls (snd (Debug_scripts entries s)) = calls s
  ∧ stdin (snd (Debug_scripts entries s)) = stdin s.
Proof.
  revert s. induction entries as [|[k v] entries IH]; intros s; [done|].
  simpl. rewrite bind_run. cbv beta.
  destruct (IH (snd (log Plain ("  " +:+ k +:+ " -> " +:+ v) s)))
    as (-> & -> & ->). done.
Qed.

Lemma Debug_modules_frame (modules : list ModuleConfig) (s : Sys W) :
  world (snd (Debug_modules modules s)) = world s
  ∧ calls (snd (Debug_modules modules s)) = calls s
  ∧ stdin (snd (Debug_modules modules s)) = stdin s.
Proof.
  revert s. induction modules as [|m modules IH]; intros s; [done|].
  simpl. print_lines.
  match goal with
  | |- context [Debug_modules modules ?s1] =>
      destruct (IH s1) as (-> & -> & ->)
  end.
  destruct (0 <? size (Scripts m))%nat.
  - rewrite bind_run. cbv beta.
    match goal with
    | |- context [Debug_scripts ?es ?s1] =>
        destruct (Debug_scripts_frame es s1) as (-> & -> & ->)
    end.
    done.
  - done.
Qed.

(** X21.  [debug] only prints.  It calls no collaborator, reads no
    input and leaves the world as it was; it fails only when the root
    document exists and cannot be loaded, or the modules cannot be
    discovered, and then with that very error, the loading of the root
    document coming first.  Without a root document it always
    succeeds. *)
Theorem Debug_only_prints (cfg : Config) (s : Sys W) :
  (world (snd (Debug cfg s)) = world s
   ∧ calls (snd (Debug cfg s)) = calls s
   ∧ stdin (snd (Debug cfg s)) = stdin s)
  ∧ (∀ err, fst (Debug cfg s) = Some err ↔
       RootConfigExists (world s) cfg = true
       ∧ (snd (LoadRootConfig (world s) cfg) = Some err
          ∨ (snd (LoadRootConfig (world s) cfg) = None
             ∧ snd (walked (world s) cfg) = Some err))).
Proof.
  unfold Debug. print_lines.
  destruct (RootConfigExists (world s) cfg).
  2: { unfold mret, M_ret. cbn [fst snd].
       rewrite ?log_world, ?log_calls, ?log_stdin.
       split; [done|]. intros err. split; [done|by intros [? _]]. }
  print_lines.
  destruct (LoadRootConfig (world s) cfg) as [rc [lerr|]].
  { unfold mret, M_ret. cbn [fst snd].
    rewrite ?log_world, ?log_calls, ?log_stdin.
    split; [done|]. intros err. split.
    - intros [= ->]. by split; [|left].
    - by intros [_ [[= ->]|[? _]]]. }
  print_lines.
  match goal with
  | |- context [GetModules cfg ?s1] =>
      pose proof (GetModules_frame cfg s1) as (Hw & Hc & Hi);
      pose proof (GetModules_result cfg s1) as Hres;
      destruct (GetModules cfg s1) as [[modules gerr] s2]
  end.
  rewrite !log_world in Hw. rewrite !log_calls in Hc.
  rewrite !log_stdin in Hi. rewrite !log_world in Hres.
  cbn [fst snd] in *.
  destruct (walked (world s) cfg) as [found [werr|]]; injection Hres as -> ->.
  { unfold mret, M_ret. cbn [fst snd]. rewrite Hw, Hc, Hi.
    split; [done|]. intros err. split.
    - intros [= ->]. split; [done|by right].
    - by intros [_ [?|[_ [= ->]]]]. }
  print_lines.
  destruct (0 <? length _)%nat; print_lines; unfold mret, M_ret;
    cbn [fst snd].
  all: match goal with
       | |- context [Debug_modules ?ms ?s3] =>
           destruct (Debug_modules_frame ms s3) as (-> & -> & ->)
       end.
  all: rewrite ?log_world, ?log_calls, ?log_stdin, Hw, Hc, Hi.
  all: split; [done|].
  all: intros err; split; [done|by intros [_ [?|[_ ?]]]].
Qed.
End DebugTheory.

(** ** More of the program on the sample machine *)

Section MoreExamples.
Import Sample.
#[local] Existing Instances filepath text toml tomlRoot ranges fs os proc exec.

(** The root found from [/repo/pkg/lib] is on its chain of parents. *)
Lemma getRootPath_sound_witness :
  ∃ k, Z.of_nat k ≤ MaxRecursion (Static repoConfig)
    ∧ (∀ j, (j < k)%nat →
         marked repo repoConfig (ancestor j (WD (Runtime repoConfig))) = false)
    ∧ ((marked repo repoConfig (ancestor k (WD (Runtime repoConfig))) = true
        ∧ "/repo" = ancestor k (WD (Runtime repoConfig)))
       ∨ (marked repo repoConfig (ancestor k (WD (Runtime repoConfig))) = false
          ∧ boundary (ancestor k (WD (Runtime repoConfig))) = true
          ∧ "/repo" = WD (Runtime repoConfig))).
Proof.
  apply (getRootPath_sound repo repoConfig "/repo"). by vm_compute.
Defined.

(** Nine levels deep the failure is "root not found". *)
Lemma getRootPath_failure_witness :
  "" = ""
  ∧ ((WD (Runtime deepConfig) = "" ∧ "root not found" = "no working directory")
     ∨ (WD (Runtime deepConfig) ≠ "" ∧ "root not found" = "root not found"
        ∧ ∀ j, Z.of_nat j ≤ MaxRecursion (Static deepConfig) →
            marked deep deepConfig (ancestor j (WD (Runtime deepConfig)))
            = false
            ∧ boundary (ancestor j (WD (Runtime deepConfig))) = false)).
Proof.
  apply (proj2 (proj2 (getRootPath_failure deep deepConfig))).
  by vm_compute.
Defined.

(** In [repo] the root is two hops above the working directory. *)
Lemma NewConfig_root_witness :
  ∃ k, (k ≤ 7)%nat
    ∧ ROOT (Runtime repoConfig) = ancestor k (WD (Runtime repoConfig))
    ∧ ∀ j, (j < k)%nat →
        marked repo repoConfig (ancestor j (WD (Runtime repoConfig))) = false.
Proof.
  apply (NewConfig_root repo repoConfig); by vm_compute.
Defined.

(** The three modules of [repo] are named after their folders. *)
Lemma GetModules_complete_witness :
  Forall (λ m, Name m = filepath_Base (RelativePath m)) [api; lib; web]
  ∧ length [api; lib; web] = 3%nat.
Proof.
  assert (GetModules repoConfig (start repo [])
          = ([api; lib; web], None, start repo [])) as Hrun
    by (vm_compute; reflexivity).
  destruct (GetModules_complete repoConfig (start repo []) (start repo [])
              [api; lib; web] Hrun) as (Hmods & Hlen & _).
  split.
  - apply Forall_forall. intros m Hm. by destruct (Hmods m Hm).
  - rewrite Hlen. by vm_compute.
Defined.

(** In [broken] discovery stops at the directory it cannot read. *)
Lemma GetModules_first_error_witness :
  fst (GetModules repoConfig (start broken []))
  = ([dir "/repo"; dir "/repo/web"]
       ≫= (λ e', fst (walkFn broken repoConfig [] e')),
     Some "open /repo/secret: permission denied")
  ∧ logged (snd (GetModules repoConfig (start broken [])))
    = [] ++ [(Warning, "open /repo/secret: permission denied")].
Proof.
  destruct (GetModules_first_error repoConfig (start broken [])
              [dir "/repo"; dir "/repo/web"] [dir "/repo/api"] secret
              "open /repo/secret: permission denied")
    as (Hres & Hlog & _).
  - by vm_compute.
  - apply (bool_decide_unpack _). by vm_compute.
  - by vm_compute.
  - by split.
Defined.

(** A root document written in [fresh] is read back as it was. *)
Lemma WriteRootConfig_LoadRootConfig_witness :
  LoadRootConfig
    (world (snd (WriteRootConfig freshConfig
                   {| rc_Name := "mono"; rc_Version := "0.1.0";
                      rc_Strategy := "workspace"; rc_Vendor := true;
                      rc_Scripts := ∅ |} (start fresh []))))
    freshConfig
  = ({| rc_Name := "mono"; rc_Version := "0.1.0";
        rc_Strategy := "workspace"; rc_Vendor := true;
        rc_Scripts := ∅ |}, None).
Proof.
  apply (proj2 (WriteRootConfig_LoadRootConfig freshConfig
                  {| rc_Name := "mono"; rc_Version := "0.1.0";
                     rc_Strategy := "workspace"; rc_Vendor := true;
                     rc_Scripts := ∅ |} (start fresh []))).
  - by vm_compute.
  - intros w p content w' [= <-]. unfold fs_Read. simpl. unfold Read. simpl.
    by rewrite lookup_insert_eq.
  - by vm_compute.
Defined.

(** [init mono] answered [y] reads once; of two lines that come
    together it takes the first. *)
Lemma Init_named_witness :
  stdin (snd (Init freshConfig ["mono"] (start fresh ["y"; "more"])))
  = ["more"].
Proof.
  apply (Init_named freshConfig ["mono"] (start fresh ["y"; "more"])
           "mono" "y" ["more"]); try (by vm_compute).
  apply Nat.ltb_lt. by vm_compute.
Defined.

(** [init] answered with an empty line and [y], read one after the
    other, reads both. *)
Lemma Init_prompted_witness :
  stdin (snd (Init freshConfig [] (start fresh [""; "y"; "more"])))
  = ["more"].
Proof.
  apply (Init_prompted freshConfig [] (start fresh [""; "y"; "more"])
           "" "y" ["more"]); try (by vm_compute).
  all: apply Nat.ltb_lt; by vm_compute.
Defined.

(** [init] given one line when it needs two. *)
Lemma Init_input_exhausted_witness :
  fst (Init freshConfig [] (start fresh ["mono"]))
  = Some "failed to read input: EOF".
Proof.
  apply (Init_input_exhausted freshConfig [] (start fresh ["mono"])).
  - by vm_compute.
  - right. split; [done|by exists "mono"].
Defined.

(** Without the go tool [init] writes nothing. *)
Lemma Init_go_failure_witness :
  calls (snd (Init (exe := execNoGo) freshConfig ["mono"]
                (start fresh ["y"])))
  = [] ++ [CallGoCommand "/home/me/mono" ["work"; "init"]].
Proof.
  eapply (Init_go_failure (exe := execNoGo) freshConfig ["mono"]
            (start fresh ["y"])).
  - by vm_compute.
  - by vm_compute.
  - left. split; [by vm_compute|]. by exists "y", [].
  - vm_compute. reflexivity.
Defined.

(** Every module of [repo] has [build]: the flag changes nothing. *)
Lemma dispatch_allowMissing_irrelevant_witness :
  dispatch repoConfig "build" true false [api; lib; web] (start repo [])
  = dispatch repoConfig "build" false false [api; lib; web] (start repo []).
Proof.
  apply dispatch_allowMissing_irrelevant. left.
  apply (bool_decide_unpack _). by vm_compute.
Defined.

(** [list] in [repo]. *)
Lemma List_prints_witness :
  fst (List repoConfig (start repo [])) = None
  ∧ logged (snd (List repoConfig (start repo [])))
    = [] ++ (if decide ([web; api; lib] = []) then [(Info, "no modules found")]
             else (λ m, (Plain, Name m))
                  <$> sort_Slice less_Name [web; api; lib])
  ∧ StronglySorted String.le (Name <$> sort_Slice less_Name [web; api; lib]).
Proof.
  apply (proj1 (proj2 (List_prints repoConfig (start repo [])))); by vm_compute.
Defined.

(** [run] in [fresh], where there is no monorepo. *)
Lemma Run_guards_witness :
  Run freshConfig [] "all" false false (start fresh [])
  = (Some "monorepo not found at /home/me/mono", start fresh []).
Proof.
  apply (proj1 (Run_guards freshConfig [] "all" false false (start fresh []))).
  by vm_compute.
Defined.

(** [run build --target root] in [repo]. *)
Lemma Run_target_root_witness :
  fst (Run repoConfig ["build"] "root" false false (start repo [])) = None
  ∧ calls (snd (Run repoConfig ["build"] "root" false false (start repo [])))
    = [].
Proof.
  pose proof (Run_target_root repoConfig ["build"] false false (start repo [])
                "build" ltac:(by vm_compute) eq_refl ltac:(done))
    as (Hok & Hcalls & _).
  by split.
Defined.

(** [run build] in [broken]. *)
Lemma Run_discovery_error_witness :
  fst (Run repoConfig ["build"] "all" false false (start broken []))
  = Some "open /repo/secret: permission denied".
Proof.
  apply (Run_discovery_error repoConfig ["build"] "all" false false
           (start broken []) "build" [web]).
  - by vm_compute.
  - reflexivity.
  - done.
  - apply (bool_decide_unpack _). by vm_compute.
  - by vm_compute.
Defined.

(** [run test --allow-missing] in [repo] runs the script of [api] alone. *)
Lemma Run_success_witness :
  fst (Run repoConfig ["test"] "all" false true (start repo [])) = None
  ∧ world (snd (Run repoConfig ["test"] "all" false true (start repo [])))
    = repo
  ∧ calls (snd (Run repoConfig ["test"] "all" false true (start repo [])))
    = [] ++ planned repoConfig "test"
              (selectModules (strings.Split "all" ",")
                 (sort_Slice less_Name [web; api; lib])).
Proof.
  assert (planned repoConfig "test"
            (selectModules (strings.Split "all" ",")
               (sort_Slice less_Name [web; api; lib]))
          = [CallBashCommand "/repo/api" "go test"]) as Hplan
    by (by vm_compute).
  pose proof (Run_success repoConfig ["test"] "all" true
                (start repo []) "test" [web; api; lib] repo) as Hthm.
  cbv zeta in Hthm. destruct Hthm as (Hok & Hworld & Hcalls & _).
  - by vm_compute.
  - reflexivity.
  - done.
  - apply (bool_decide_unpack _). by vm_compute.
  - by vm_compute.
  - apply (bool_decide_unpack _). by vm_compute.
  - by right.
  - rewrite Hplan. eapply succeed_cons; [by vm_compute|constructor].
  - by split_and!.
Defined.

(** The tokens [web,api] and [api,web,api] select the same modules. *)
Lemma selectModules_tokens_witness :
  selectModules ["web"; "api"] [api; lib; web]
  = selectModules ["api"; "web"; "api"] [api; lib; web].
Proof.
  apply (selectModules_tokens ["web"; "api"] ["api"; "web"; "api"]
           [api; lib; web]); [done..|].
  intros t. rewrite !elem_of_cons, !elem_of_nil. tauto.
Defined.

(** A script in a directory that is not there is not started. *)
Lemma Exec_runs_witness :
  Exec_BashCommand repo "/repo/gone" "make"
  = (repo, Some "directory does not exist: /repo/gone").
Proof.
  apply (proj1 (Exec_runs repo "/repo/gone" "make" [])). by vm_compute.
Defined.

End MoreExamples.
